(** * The acoplanarity-angle estimator of [httcp/production/PhiCP_Estimator.py]

    A shallow embedding of the Python module and the properties of its
    natural-language specification.

    Conventions of the embedding.
    - numpy floats are idealised as real numbers ([R]); the one value outside
      the reals that the module itself can create, NaN ([np.arccos] and
      [np.sqrt] outside their domain), is kept: see [float].  The dot product
      of two vectors stands for the value that is computed; no property
      relies on a bound that holds of the exact dot product only.
    - an awkward array is a jagged list, one inner list per event
      ([ak A := list (list A)]); an element-wise operation of two or three
      arrays broadcasts them: an array of one event is used for every event
      of a longer array.  It raises [ValueError] when the arrays cannot be
      broadcast: when they differ in the number of events and the shorter
      one does not have exactly one, or when two entries of one event differ
      in length.
    - Python exceptions are the errors of the [result] monad.
    - the Lorentz boost, the velocity [boostvec] and the unit vector of the
      vector library, and the class [PolarimetricA1], are collaborators whose
      code is not part of the module; they are the variables of Section
      [Pipeline].  The componentwise algebra of the vector library (sums,
      differences, dot and cross products, the Minkowski mass) is written
      out. *)

From Stdlib Require Import Reals Lra String.
From stdpp Require Import gmap strings list.

#[local] Open Scope string_scope.
#[local] Open Scope R_scope.

(** ** Exceptions *)

Inductive exn : Type :=
| RuntimeError (msg : string)
| AssertionError (msg : string)
| KeyError (key : string)
| TypeError
| AttributeError
| ValueError.

Inductive result (A : Type) : Type :=
| Ok (a : A)
| Raise (e : exn).
Arguments Ok {A} a.
Arguments Raise {A} e.

Definition bind {A B : Type} (r : result A) (k : A -> result B) : result B :=
  match r with
  | Ok a => k a
  | Raise e => Raise e
  end.

Notation "'let*' x ':=' r 'in' k" := (bind r (fun x => k))
  (at level 10, x pattern, r at level 100, k at level 200).

Definition assert (b : bool) (msg : string) : result unit :=
  if b then Ok tt else Raise (AssertionError msg).

(** ** Floats: the reals and NaN *)

Inductive float : Type :=
| Num (r : R)
| NaN.

Definition Rltb (a b : R) : bool := if Rlt_dec a b then true else false.

Definition fadd (a b : float) : float :=
  match a, b with Num x, Num y => Num (x + y) | _, _ => NaN end.
Definition fsub (a b : float) : float :=
  match a, b with Num x, Num y => Num (x - y) | _, _ => NaN end.
Definition fabs (a : float) : float :=
  match a with Num x => Num (Rabs x) | NaN => NaN end.
(** Every comparison with NaN is false. *)
Definition fltb (a b : float) : bool :=
  match a, b with Num x, Num y => Rltb x y | _, _ => false end.
Definition fgtb (a b : float) : bool := fltb b a.

(** [np.arccos]: NaN outside [-1, 1]. *)
Definition arccos (x : R) : float :=
  if Rle_dec (-1) x then if Rle_dec x 1 then Num (acos x) else NaN else NaN.

(** [np.sqrt]: NaN below 0. *)
Definition fsqrt (x : R) : float :=
  if Rle_dec 0 x then Num (sqrt x) else NaN.

(** ** Three-vectors and Lorentz vectors *)

Record ThreeVector : Type := mkV3 { x3 : R; y3 : R; z3 : R }.

Record LorentzVector : Type := mkLV { lx : R; ly : R; lz : R; lt : R }.

(** A reconstructed object of the event record: a Lorentz vector with the
    extra fields the module reads ([charge], [IPx], [IPy], [IPz]). *)
Record Particle : Type := mkParticle {
  p4 : LorentzVector;
  charge : R;
  IPx : R;
  IPy : R;
  IPz : R
}.

Definition dot (a b : ThreeVector) : R :=
  x3 a * x3 b + y3 a * y3 b + z3 a * z3 b.

Definition cross (a b : ThreeVector) : ThreeVector :=
  mkV3 (y3 a * z3 b - z3 a * y3 b)
       (z3 a * x3 b - x3 a * z3 b)
       (x3 a * y3 b - y3 a * x3 b).

Definition negative (a : ThreeVector) : ThreeVector :=
  mkV3 (- x3 a) (- y3 a) (- z3 a).

Definition vsub (a b : ThreeVector) : ThreeVector :=
  mkV3 (x3 a - x3 b) (y3 a - y3 b) (z3 a - z3 b).

Definition vscale (a : ThreeVector) (k : R) : ThreeVector :=
  mkV3 (x3 a * k) (y3 a * k) (z3 a * k).

Definition pvec (v : LorentzVector) : ThreeVector := mkV3 (lx v) (ly v) (lz v).

Definition energy (v : LorentzVector) : R := lt v.

Definition ladd (a b : LorentzVector) : LorentzVector :=
  mkLV (lx a + lx b) (ly a + ly b) (lz a + lz b) (lt a + lt b).

Definition lsub (a b : LorentzVector) : LorentzVector :=
  mkLV (lx a - lx b) (ly a - ly b) (lz a - lz b) (lt a - lt b).

(** Minkowski product with signature (+, -, -, -). *)
Definition ldot (a b : LorentzVector) : R :=
  lt a * lt b - lx a * lx b - ly a * ly b - lz a * lz b.

Definition mass2 (v : LorentzVector) : R := ldot v v.

Definition mass (v : LorentzVector) : float := fsqrt (mass2 v).

(** ** Awkward arrays *)

Definition ak (A : Type) : Type := list (list A).

Definition ak_map {A B : Type} (f : A -> B) (a : ak A) : ak B :=
  map (map f) a.

(** Two lists combined position by position; [ValueError] when their lengths
    differ. *)
Fixpoint zip_strict {A B C : Type} (f : A -> B -> result C)
    (a : list A) (b : list B) : result (list C) :=
  match a, b with
  | [], [] => Ok []
  | x :: a', y :: b' =>
      let* c := f x y in
      let* cs := zip_strict f a' b' in
      Ok (c :: cs)
  | _, _ => Raise ValueError
  end.

(** Broadcasting to [n] events: an array of one event is repeated, any other
    array is left as it is. *)
Definition broadcast_to {A : Type} (n : nat) (a : ak A) : ak A :=
  match a with
  | [row] => replicate n row
  | _ => a
  end.

(** Two arrays of the same number of events, combined entry by entry. *)
Definition ak_zip {A B C : Type} (f : A -> B -> C) (a : ak A) (b : ak B)
    : result (ak C) :=
  zip_strict (zip_strict (fun x y => Ok (f x y))) a b.

(** A binary element-wise operation: both arrays are broadcast to the larger
    number of events, then combined entry by entry. *)
Definition ak_map2 {A B C : Type} (f : A -> B -> C) (a : ak A) (b : ak B)
    : result (ak C) :=
  let n := Nat.max (length a) (length b) in
  ak_zip f (broadcast_to n a) (broadcast_to n b).

(** [ak.where(c, a, b)]. *)
Definition ak_where {A : Type} (c : ak bool) (a b : ak A) : result (ak A) :=
  let* ab := ak_map2 pair a b in
  ak_map2 (fun (t : bool) (xy : A * A) => if t then fst xy else snd xy) c ab.

(** The number of events and the length of every entry. *)
Definition shape {A : Type} (a : ak A) : list nat := map length a.

(** [a[:, i:j]]. *)
Definition ak_slice {A : Type} (i j : nat) (a : ak A) : ak A :=
  map (fun l => take (j - i) (drop i l)) a.

(** ** Dynamically typed values

    What a component of the intermediate dict can hold: [None], an array of
    three-vectors, or an array of numbers.  The docstrings fix the kind of
    every component (P, R, H: vectors; C: numbers; Y: numbers or [None]); on
    a component of another kind the run fails, and the embedding reports the
    failure where the component is first used as a vector or as a number. *)

Inductive value : Type :=
| VNone
| VVec (a : ak ThreeVector)
| VNum (a : ak R).

(** Use of a value as an array of vectors through a vector method such as
    [.dot] or [.cross]. *)
Definition as_vec (v : value) : result (ak ThreeVector) :=
  match v with
  | VVec a => Ok a
  | _ => Raise AttributeError
  end.

(** Use of a value as a branch of [ak.where], the result of which is then
    used through a vector method: [ak.where] refuses [None] with a
    [TypeError]; an array of numbers fails at the vector method. *)
Definition as_branch (v : value) : result (ak ThreeVector) :=
  match v with
  | VVec a => Ok a
  | VNone => Raise TypeError
  | VNum _ => Raise AttributeError
  end.

(** Use of a value as an array of numbers (in a comparison or a product). *)
Definition as_num (v : value) : result (ak R) :=
  match v with
  | VNum a => Ok a
  | _ => Raise TypeError
  end.

(** [vecsdict[key]]. *)
Definition getitem (d : gmap string value) (key : string) : result value :=
  match d !! key with
  | Some v => Ok v
  | None => Raise (KeyError key)
  end.

(** ** [_getSign] *)

Definition _getSign (P1 H1 P2 H2 C1 C2 : value) : result (ak R) :=
  let* c1 := as_num C1 in
  let* p1 := as_branch P1 in
  let* p2 := as_branch P2 in
  let* Pm := ak_where (ak_map (fun c => Rltb c 0) c1) p1 p2 in
  let* h1 := as_branch H1 in
  let* h2 := as_branch H2 in
  let* Hm := ak_where (ak_map (fun c => Rltb c 0) c1) h1 h2 in
  let* Hp := ak_where (ak_map (fun c => Rltb c 0) c1) h2 h1 in
  let* HpxHm := ak_map2 cross Hp Hm in
  let* sign := ak_map2 dot Pm HpxHm in
  Ok sign.

(** ** [ComputeAcopAngle] *)

(** Lines 160-161: the map of the angle into the interval. *)
Definition wrap_angle (acop : ak float) : result (ak float) :=
  let* acop := ak_where (ak_map (fun a => fgtb a (Num (2 * PI))) acop)
                        (ak_map (fun a => fsub a (Num (2 * PI))) acop) acop in
  let* acop := ak_where (ak_map (fun a => fltb a (Num 0)) acop)
                        (ak_map (fun a => fadd a (Num (2 * PI))) acop) acop in
  Ok acop.

(** [v is not None]. *)
Definition is_not_None (v : value) : bool :=
  match v with
  | VNone => false
  | _ => true
  end.

(** Lines 140-148: the phase shift of the pair, [None] when neither leg has
    one. *)
Definition combine_Y (Y1 Y2 : value) : result (option value) :=
  if is_not_None Y1 then
    if is_not_None Y2 then
      let* y1 := as_num Y1 in
      let* y2 := as_num Y2 in
      let* y := ak_map2 Rmult y1 y2 in
      Ok (Some (VNum y))
    else Ok (Some Y1)
  else
    if is_not_None Y2 then Ok (Some Y2)
    else Ok None.

(** Lines 140-157: the angle before it is mapped into the interval.  [C2] is
    passed on to [_getSign] and is not used otherwise. *)
Definition acop_before_wrap (P1 R1 H1 C1 P2 R2 H2 C2 Y1 Y2 : value)
    : result (ak float) :=
  let* Y := combine_Y Y1 Y2 in
  let* r1 := as_vec R1 in
  let* r2 := as_vec R2 in
  let* r1r2 := ak_map2 dot r1 r2 in
  let acop := ak_map arccos r1r2 in
  let* sign := _getSign P1 H1 P2 H2 C1 C2 in
  let* acop := ak_where (ak_map (fun s => Rltb s 0) sign)
                        (ak_map (fun a => fsub (Num (2 * PI)) a) acop) acop in
  let* acop :=
    match Y with
    | Some Y =>
        let* y := as_num Y in
        ak_where (ak_map (fun t => Rltb t 0) y)
                 (ak_map (fun a => fadd a (Num PI)) acop) acop
    | None => Ok acop
    end in
  Ok acop.

(** Lines 140-162: the numeric work on the ten components. *)
Definition angle_of_components (P1 R1 H1 C1 P2 R2 H2 C2 Y1 Y2 : value)
    : result (ak float) :=
  let* acop := acop_before_wrap P1 R1 H1 C1 P2 R2 H2 C2 Y1 Y2 in
  wrap_angle acop.

(** Lines 128-138, the assertion on the size of the dict and the ten
    look-ups, then the numeric work. *)
Definition ComputeAcopAngle (vecsdict : gmap string value)
    : result (ak float) :=
  let* _ := assert (Nat.eqb (size vecsdict) 10)
              "input dict to ComputeAcopAngle does not have proper structure" in
  let* P1 := getitem vecsdict "P1" in
  let* R1 := getitem vecsdict "R1" in
  let* H1 := getitem vecsdict "H1" in
  let* C1 := getitem vecsdict "C1" in
  let* P2 := getitem vecsdict "P2" in
  let* R2 := getitem vecsdict "R2" in
  let* H2 := getitem vecsdict "H2" in
  let* C2 := getitem vecsdict "C2" in
  let* Y1 := getitem vecsdict "Y1" in
  let* Y2 := getitem vecsdict "Y2" in
  angle_of_components P1 R1 H1 C1 P2 R2 H2 C2 Y1 Y2.

(** ** [_get_pi_a1_DP] and [_prepareVecs] *)

Definition rho_mass : R := 77526 / 100000.

Definition p4_add (a b : Particle) : LorentzVector := ladd (p4 a) (p4 b).

Definition _get_pi_a1_DP (p4_pi : ak Particle) : result (ak Particle) :=
  let* sum1 := ak_map2 p4_add (ak_slice 0 1 p4_pi) (ak_slice 1 2 p4_pi) in
  let Minv1 := ak_map mass sum1 in
  let* sum2 := ak_map2 p4_add (ak_slice 0 1 p4_pi) (ak_slice 2 3 p4_pi) in
  let Minv2 := ak_map mass sum2 in
  let* closer :=
    ak_map2 fltb (ak_map (fun m => fabs (fsub (Num rho_mass) m)) Minv1)
                 (ak_map (fun m => fabs (fsub (Num rho_mass) m)) Minv2) in
  let* Pi := ak_where closer (ak_slice 1 2 p4_pi) (ak_slice 2 3 p4_pi) in
  Ok Pi.

(** [_P] and [_R] start as [None] and stay so on the path that assigns
    neither; the charge is read after the branches. *)
Definition _prepareVecs (hcand hcand_pi hcand_pi0 : ak Particle)
    (leg_method leg_mode : string)
    : result (option (ak Particle) * option (ak Particle) * ak R) :=
  let* PR :=
    if String.eqb leg_method "DP" then
      if String.eqb leg_mode "rho" then
        Ok (Some hcand_pi, Some hcand_pi0)
      else if String.eqb leg_mode "a1" then
        let* _P := _get_pi_a1_DP hcand_pi in
        Ok (Some _P, Some (ak_slice 0 1 hcand_pi))
      else Raise (RuntimeError (String.append "Wrong mode : " leg_mode))
    else if String.eqb leg_method "PV" then
      Ok (Some hcand, Some hcand_pi)
    else if String.eqb leg_method "IP" then
      if String.eqb leg_mode "e" || String.eqb leg_mode "mu" then
        Ok (Some hcand, Some hcand)
      else if String.eqb leg_mode "pi" then
        Ok (Some hcand_pi, Some hcand)
      else Ok (None, None)
    else Raise (RuntimeError (String.append "Wrong " leg_method)) in
  let hcand_charge := ak_map charge hcand in
  Ok (fst PR, snd PR, hcand_charge).

(** ** The pipeline over the vector library *)

(** [a + b] on two arrays of Lorentz vectors; an operand that is [None]
    is a [TypeError]. *)
Definition add_arrays (a b : option (ak Particle)) : result (ak LorentzVector) :=
  match a, b with
  | Some a, Some b => ak_map2 p4_add a b
  | _, _ => Raise TypeError
  end.

(** The value stored in the dict for a phase shift. *)
Definition value_of_Y (Y : option (ak R)) : value :=
  match Y with
  | Some y => VNum y
  | None => VNone
  end.

(** [p4hcandinfodict[key]]. *)
Definition getp4 (d : gmap string (ak Particle)) (key : string)
    : result (ak Particle) :=
  match d !! key with
  | Some v => Ok v
  | None => Raise (KeyError key)
  end.

(** The dict literal of lines 107-109. *)
Definition vecsdict_of (P1 R1 H1 C1 P2 R2 H2 C2 Y1 Y2 : value)
    : gmap string value :=
  <["P1" := P1]> (<["R1" := R1]> (<["H1" := H1]> (<["C1" := C1]>
  (<["P2" := P2]> (<["R2" := R2]> (<["H2" := H2]> (<["C2" := C2]>
  (<["Y1" := Y1]> (<["Y2" := Y2]> ∅))))))))).

Section Pipeline.
(** The collaborators: the Lorentz boost of a four-vector by a velocity,
    the velocity of a four-vector, the unit vector of a three-vector, the
    polarimetric vector [PolarimetricA1(...).PVC()] of an a1 decay, and the
    conversion of the result to single precision. *)
Variable boost : LorentzVector -> ThreeVector -> LorentzVector.
Variable boostvec : LorentzVector -> ThreeVector.
Variable vunit : ThreeVector -> ThreeVector.
Variable PolarimetricA1_PVC :
  ak LorentzVector -> ak LorentzVector -> ak LorentzVector ->
  ak LorentzVector -> ak R -> result (ak LorentzVector).
Variable astype_float32 : float -> float.

(** [_getBoost] *)
Definition _getBoost (P1 R1 P2 R2 : option (ak Particle))
    (leg1_method leg2_method leg1_mode leg2_mode : string)
    : result (ak ThreeVector) :=
  let* frame :=
    if String.eqb leg1_method "PV" && String.eqb leg2_method "PV" then
      if String.eqb leg1_mode "pi" && String.eqb leg2_mode "pi" then
        add_arrays R1 R2
      else add_arrays P1 P2
    else add_arrays P1 P2 in
  Ok (ak_map boostvec frame).

(** [V.boost(boostv.negative())]; a [V] that is [None] has no attribute
    [boost]. *)
Definition boost_to_ZMF (V : option (ak Particle)) (boostv : ak ThreeVector)
    : result (ak LorentzVector) :=
  match V with
  | Some v => ak_map2 (fun p b => boost (p4 p) b) v (ak_map negative boostv)
  | None => Raise AttributeError
  end.

(** [V[:, i:j]]; a [V] that is [None] cannot be subscripted. *)
Definition slice_of (i j : nat) (V : option (ak Particle))
    : result (option (ak Particle)) :=
  match V with
  | Some v => Ok (Some (ak_slice i j v))
  | None => Raise TypeError
  end.

(** [_pv] *)
Definition _pv (boostv : ak ThreeVector) (tau pi : option (ak Particle))
    (pi0 : ak Particle) (leg_mode : string)
    : result (ak ThreeVector * ak ThreeVector * ak ThreeVector) :=
  let* P := boost_to_ZMF tau boostv in
  let* pv :=
    if String.eqb leg_mode "pi" then
      let* pi_b := boost_to_ZMF pi boostv in
      Ok (ak_map pvec pi_b)
    else if String.eqb leg_mode "rho" then
      let* pi_b := boost_to_ZMF pi boostv in
      let* pi0_b := boost_to_ZMF (Some pi0) boostv in
      let* q := ak_map2 lsub pi_b pi0_b in
      let* pipi0 := ak_map2 ladd pi_b pi0_b in
      let* N := ak_map2 lsub P pipi0 in
      let* qN := ak_map2 ldot q N in
      let* lhs := ak_map2 (fun k v => vscale v k)
                          (ak_map (fun k => 2 * k) qN) (ak_map pvec q) in
      let* rhs := ak_map2 (fun k v => vscale v k)
                          (ak_map mass2 q) (ak_map pvec N) in
      ak_map2 vsub lhs rhs
    else if String.eqb leg_mode "a1" then
      let* os_pi := slice_of 0 1 pi in
      let* os_pi_HRF := boost_to_ZMF os_pi boostv in
      let* ss1_pi := slice_of 1 2 pi in
      let* ss1_pi_HRF := boost_to_ZMF ss1_pi boostv in
      let* ss2_pi := slice_of 2 3 pi in
      let* ss2_pi_HRF := boost_to_ZMF ss2_pi boostv in
      let* tau_charge :=
        match tau with
        | Some t => Ok (ak_map charge t)
        | None => Raise AttributeError
        end in
      let* pvc := PolarimetricA1_PVC P os_pi_HRF ss1_pi_HRF ss2_pi_HRF
                                     tau_charge in
      Ok (ak_map (fun v => negative (pvec v)) pvc)
    else Raise (RuntimeError (String.append "Wrong mode: " leg_mode)) in
  let P := ak_map (fun v => vunit (pvec v)) P in
  let H := ak_map vunit pv in
  let* HxP := ak_map2 cross H P in
  let R := ak_map vunit HxP in
  Ok (P, R, H).

(** [_reStructureVecs]; the quotient that gives [Y] is the quotient of
    the reals. *)
Definition _reStructureVecs (boostv : ak ThreeVector)
    (V1 V2 : option (ak Particle)) (V3 : ak Particle)
    (leg_method leg_mode : string)
    : result (ak ThreeVector * ak ThreeVector * ak ThreeVector
              * option (ak R)) :=
  if String.eqb leg_method "DP" then
    let* pi_ZMF := boost_to_ZMF V1 boostv in
    let* pi0_ZMF := boost_to_ZMF V2 boostv in
    let pi_ZMF_unit := ak_map (fun v => vunit (pvec v)) pi_ZMF in
    let pi0_ZMF_unit := ak_map (fun v => vunit (pvec v)) pi0_ZMF in
    let* pi_dot_pi0 := ak_map2 dot pi_ZMF_unit pi0_ZMF_unit in
    let* along := ak_map2 vscale pi_ZMF_unit pi_dot_pi0 in
    let* transverse := ak_map2 vsub pi0_ZMF_unit along in
    let pi0_ZMF_unit_T := ak_map vunit transverse in
    let P := pi_ZMF_unit in
    let R := pi0_ZMF_unit_T in
    let H := R in
    let* num := ak_map2 Rminus (ak_map energy pi_ZMF) (ak_map energy pi0_ZMF) in
    let* den := ak_map2 Rplus (ak_map energy pi_ZMF) (ak_map energy pi0_ZMF) in
    let* Y := ak_map2 Rdiv num den in
    Ok (P, R, H, Some Y)
  else if String.eqb leg_method "PV" then
    let* PRH := _pv boostv V1 V2 V3 leg_mode in
    Ok (PRH, None)
  else if String.eqb leg_method "IP" then
    let* V1_b := boost_to_ZMF V1 boostv in
    let P_ZMF := ak_map pvec V1_b in
    let* IP :=
      match V2 with
      | Some v2 => Ok (ak_map (fun p => mkLV (IPx p) (IPy p) (IPz p) 0) v2)
      | None => Raise AttributeError
      end in
    let* IP_b := ak_map2 boost IP (ak_map negative boostv) in
    let R_ZMF := ak_map pvec IP_b in
    let P_ZMF_unit := ak_map vunit P_ZMF in
    let R_ZMF_unit := ak_map vunit R_ZMF in
    let* R_dot_P := ak_map2 dot R_ZMF_unit P_ZMF_unit in
    let* along := ak_map2 vscale P_ZMF_unit R_dot_P in
    let* transverse := ak_map2 vsub R_ZMF_unit along in
    let R_ZMF_T_unit := ak_map vunit transverse in
    let P := P_ZMF_unit in
    let R := R_ZMF_T_unit in
    let H := R in
    Ok (P, R, H, None)
  else Raise (RuntimeError (String.append "Wrong method: " leg_method)).

(** [PrepareVecsForPhiCP] *)
Definition PrepareVecsForPhiCP (p4hcandinfodict : gmap string (ak Particle))
    (method_leg1 method_leg2 mode_leg1 mode_leg2 : string)
    : result (gmap string value) :=
  let* p4h1 := getp4 p4hcandinfodict "p4h1" in
  let* p4h1pi := getp4 p4hcandinfodict "p4h1pi" in
  let* p4h1pi0 := getp4 p4hcandinfodict "p4h1pi0" in
  let* p4h2 := getp4 p4hcandinfodict "p4h2" in
  let* p4h2pi := getp4 p4hcandinfodict "p4h2pi" in
  let* p4h2pi0 := getp4 p4hcandinfodict "p4h2pi0" in
  let* (_P1, _R1, _C1) :=
    _prepareVecs p4h1 p4h1pi p4h1pi0 method_leg1 mode_leg1 in
  let* (_P2, _R2, _C2) :=
    _prepareVecs p4h2 p4h2pi p4h2pi0 method_leg2 mode_leg2 in
  let* boostv := _getBoost _P1 _R1 _P2 _R2
                           method_leg1 method_leg2 mode_leg1 mode_leg2 in
  let* (P1, R1, H1, Y1) :=
    _reStructureVecs boostv _P1 _R1 p4h1pi0 method_leg1 mode_leg1 in
  let* (P2, R2, H2, Y2) :=
    _reStructureVecs boostv _P2 _R2 p4h2pi0 method_leg2 mode_leg2 in
  Ok (vecsdict_of (VVec P1) (VVec R1) (VVec H1) (VNum _C1)
                  (VVec P2) (VVec R2) (VVec H2) (VNum _C2)
                  (value_of_Y Y1) (value_of_Y Y2)).

(** [GetPhiCP] *)
Definition GetPhiCP (p4hcandinfodict : gmap string (ak Particle))
    (method_leg1 method_leg2 mode_leg1 mode_leg2 : string)
    : result (ak float) :=
  let* phicp_input_vec_dict :=
    PrepareVecsForPhiCP p4hcandinfodict
                        method_leg1 method_leg2 mode_leg1 mode_leg2 in
  let* phicp := ComputeAcopAngle phicp_input_vec_dict in
  Ok (ak_map astype_float32 phicp).
End Pipeline.

(** ** Batches of events

    Arrays of one shape are the columns of one table of events.  [Event] is a row of that table: the ten components of
    one entry of the batch. *)

Record Event : Type := mkEvent {
  eP1 : ThreeVector; eR1 : ThreeVector; eH1 : ThreeVector; eC1 : R;
  eP2 : ThreeVector; eR2 : ThreeVector; eH2 : ThreeVector; eC2 : R;
  eY1 : R; eY2 : R
}.

(** A phase-shift column is a Python [None] for a leg whose method has no
    phase shift. *)
Definition Y_column (present : bool) (f : Event -> R) (E : ak Event) : value :=
  if present then VNum (ak_map f E) else VNone.

Definition events_dict (E : ak Event) (y1 y2 : bool) : gmap string value :=
  vecsdict_of (VVec (ak_map eP1 E)) (VVec (ak_map eR1 E)) (VVec (ak_map eH1 E))
              (VNum (ak_map eC1 E))
              (VVec (ak_map eP2 E)) (VVec (ak_map eR2 E)) (VVec (ak_map eH2 E))
              (VNum (ak_map eC2 E))
              (Y_column y1 eY1 E) (Y_column y2 eY2 E).

(** The computation of one entry, read off the array program. *)

Definition sign_event (e : Event) : R :=
  let Pm := if Rltb (eC1 e) 0 then eP1 e else eP2 e in
  let Hm := if Rltb (eC1 e) 0 then eH1 e else eH2 e in
  let Hp := if Rltb (eC1 e) 0 then eH2 e else eH1 e in
  dot Pm (cross Hp Hm).

Definition raw_angle (e : Event) : float := arccos (dot (eR1 e) (eR2 e)).

Definition sign_step (sign : R) (acop : float) : float :=
  if Rltb sign 0 then fsub (Num (2 * PI)) acop else acop.

Definition Y_event (y1 y2 : bool) (e : Event) : option R :=
  match y1, y2 with
  | true, true => Some (eY1 e * eY2 e)
  | true, false => Some (eY1 e)
  | false, true => Some (eY2 e)
  | false, false => None
  end.

Definition shift_step (Y : option R) (acop : float) : float :=
  match Y with
  | Some y => if Rltb y 0 then fadd acop (Num PI) else acop
  | None => acop
  end.

Definition wrap (acop : float) : float :=
  let acop := if fgtb acop (Num (2 * PI)) then fsub acop (Num (2 * PI))
              else acop in
  if fltb acop (Num 0) then fadd acop (Num (2 * PI)) else acop.

Definition prewrap_event (y1 y2 : bool) (e : Event) : float :=
  shift_step (Y_event y1 y2 e) (sign_step (sign_event e) (raw_angle e)).

Definition acop_event (y1 y2 : bool) (e : Event) : float :=
  wrap (prewrap_event y1 y2 e).

(** ** Vocabulary of the specification *)

(** The ten names of the intermediate dict. *)
Definition ten_names : gset string :=
  {[ "P1"; "R1"; "H1"; "C1"; "P2"; "R2"; "H2"; "C2"; "Y1"; "Y2" ]}.

(** The errors about the structure of the dict: the failed assertion on its
    size and a missing key. *)
Definition is_structural (e : exn) : bool :=
  match e with
  | AssertionError _ | KeyError _ => true
  | _ => false
  end.

Definition is_unit (v : ThreeVector) : Prop := dot v v = 1.

(** The contract on the input of the angle computation: both R vectors are
    unit vectors, exactly.  It serves to show that an input is valid; no
    range is derived from it, since vectors that are normalised in floating
    point are unit vectors only up to rounding. *)
Definition valid_event (e : Event) : Prop :=
  is_unit (eR1 e) /\ is_unit (eR2 e).

(** An angle of the half-open interval [0, 2 pi). *)
Definition in_half_open (a : float) : Prop :=
  match a with
  | Num r => 0 <= r < 2 * PI
  | NaN => False
  end.

(** An angle of the closed interval [0, 2 pi]. *)
Definition in_closed (a : float) : Prop :=
  match a with
  | Num r => 0 <= r <= 2 * PI
  | NaN => False
  end.

(** NaN, or an angle of the closed interval [0, 2 pi]. *)
Definition nan_or_closed (a : float) : Prop := a = NaN \/ in_closed a.

(** The specification's condition of the special frame: both methods are PV
    and both modes are pi. *)
Definition both_PV_pi (m1 m2 d1 d2 : string) : bool :=
  bool_decide (m1 = "PV" /\ m2 = "PV" /\ d1 = "pi" /\ d2 = "pi").

(** A run of [PrepareVecsForPhiCP] that returns [out]: the six look-ups, the
    selection of the vectors of both legs, the one frame and its array of
    boost vectors, and the restructuring of both legs with that array. *)
Definition one_frame_for_both_legs
    (boost : LorentzVector -> ThreeVector -> LorentzVector)
    (boostvec : LorentzVector -> ThreeVector)
    (vunit : ThreeVector -> ThreeVector)
    (PolarimetricA1_PVC :
       ak LorentzVector -> ak LorentzVector -> ak LorentzVector ->
       ak LorentzVector -> ak R -> result (ak LorentzVector))
    (d : gmap string (ak Particle)) (m1 m2 d1 d2 : string)
    (out : gmap string value) : Prop :=
  exists p4h1 p4h1pi p4h1pi0 p4h2 p4h2pi p4h2pi0
         _P1 _R1 _C1 _P2 _R2 _C2 frame boostv P1 R1 H1 Y1 P2 R2 H2 Y2,
    d !! "p4h1" = Some p4h1 /\ d !! "p4h1pi" = Some p4h1pi /\
    d !! "p4h1pi0" = Some p4h1pi0 /\ d !! "p4h2" = Some p4h2 /\
    d !! "p4h2pi" = Some p4h2pi /\ d !! "p4h2pi0" = Some p4h2pi0 /\
    _prepareVecs p4h1 p4h1pi p4h1pi0 m1 d1 = Ok (_P1, _R1, _C1) /\
    _prepareVecs p4h2 p4h2pi p4h2pi0 m2 d2 = Ok (_P2, _R2, _C2) /\
    (if both_PV_pi m1 m2 d1 d2 then add_arrays _R1 _R2
     else add_arrays _P1 _P2) = Ok frame /\
    _getBoost boostvec _P1 _R1 _P2 _R2 m1 m2 d1 d2 = Ok boostv /\
    Forall2 (Forall2 (fun f b => b = boostvec f)) frame boostv /\
    _reStructureVecs boost vunit PolarimetricA1_PVC
                     boostv _P1 _R1 p4h1pi0 m1 d1 = Ok (P1, R1, H1, Y1) /\
    _reStructureVecs boost vunit PolarimetricA1_PVC
                     boostv _P2 _R2 p4h2pi0 m2 d2 = Ok (P2, R2, H2, Y2) /\
    out = vecsdict_of (VVec P1) (VVec R1) (VVec H1) (VNum _C1)
                      (VVec P2) (VVec R2) (VVec H2) (VNum _C2)
                      (value_of_Y Y1) (value_of_Y Y2).

(** The legs of the pair, and the components of a leg. *)
Inductive leg : Type := Leg1 | Leg2.

Definition leg_P (l : leg) (e : Event) : ThreeVector :=
  match l with Leg1 => eP1 e | Leg2 => eP2 e end.
Definition leg_H (l : leg) (e : Event) : ThreeVector :=
  match l with Leg1 => eH1 e | Leg2 => eH2 e end.
Definition leg_C (l : leg) (e : Event) : R :=
  match l with Leg1 => eC1 e | Leg2 => eC2 e end.

(** The precondition on the charges: both are unit charges and they are
    opposite. *)
Definition opposite_unit_charges (e : Event) : Prop :=
  (eC1 e = -1 /\ eC2 e = 1) \/ (eC1 e = 1 /\ eC2 e = -1).

(** The specification's sign: [Pm . (Hp x Hm)], with (Pm, Hm) of the leg
    [neg] and Hp of the leg [pos]. *)
Definition spec_sign (neg pos : leg) (e : Event) : R :=
  dot (leg_P neg e) (cross (leg_H pos e) (leg_H neg e)).

(** The specification's sign correction of the raw angle. *)
Definition spec_sign_correction (sign : R) (raw : float) : float :=
  if Rlt_dec sign 0 then fsub (Num (2 * PI)) raw else raw.

(** The specification's combination of the phase shifts of the two legs. *)
Definition spec_combined_Y (Y1 Y2 : option R) : option R :=
  match Y1, Y2 with
  | Some a, Some b => Some (a * b)
  | Some a, None => Some a
  | None, Some b => Some b
  | None, None => None
  end.

(** The phase shift of one leg of one entry, absent with its column. *)
Definition Y_of (present : bool) (y : R) : option R :=
  if present then Some y else None.

(** The specification's choice among the three charged pions of an a1
    decay, ordered opposite-sign first: is the mass [m1] strictly closer to
    the rho mass than [m2]? *)
Definition closer_to_rho (m1 m2 : float) : bool :=
  fltb (fabs (fsub m1 (Num rho_mass))) (fabs (fsub m2 (Num rho_mass))).

Definition spec_a1_P (pions : list Particle) : list Particle :=
  match pions with
  | [pion0; pion1; pion2] =>
      if closer_to_rho (mass (p4_add pion0 pion1)) (mass (p4_add pion0 pion2))
      then [pion1] else [pion2]
  | _ => []
  end.

Definition spec_a1_R (pions : list Particle) : list Particle :=
  match pions with
  | pion0 :: _ => [pion0]
  | [] => []
  end.

(** What an angle can be at a stage of the computation: NaN, or a number
    of [0, k pi]. *)
Definition nan_or_upto (k : R) (a : float) : Prop :=
  a = NaN \/ exists r, a = Num r /\ 0 <= r <= k * PI.

(** A computation that raises no structural error. *)
Definition numeric_only {A : Type} (r : result A) : Prop :=
  forall e, r = Raise e -> is_structural e = false.

(** The three charged pions of one event as the entry of the array. *)
Definition triple_list (t : Particle * Particle * Particle) : list Particle :=
  [t.1.1; t.1.2; t.2].

(** The row of the table of events made of ten aligned entries. *)
Definition event_of_tuple
    (t : ThreeVector * ThreeVector * ThreeVector * R
         * ThreeVector * ThreeVector * ThreeVector * R * R * R) : Event :=
  let '(p1, r1, h1, c1, p2, r2, h2, c2, y1, y2) := t in
  mkEvent p1 r1 h1 c1 p2 r2 h2 c2 y1 y2.

(** A component of [n] events; [None] has no events to compare. *)
Definition has_events (n : nat) (v : value) : Prop :=
  match v with
  | VNone => True
  | VVec a => length a = n
  | VNum a => length a = n
  end.

(** The components that are read (all but C2) are arrays of [n] events, or
    [None]: no array of one event is broadcast against longer ones. *)
Definition same_events (n : nat) (d : gmap string value) : Prop :=
  forall k v, k <> "C2" -> d !! k = Some v -> has_events n v.

(** The array of as many events as the list has elements, one entry each. *)
Definition one_each {A : Type} (l : list A) : ak A := map (fun x => [x]) l.

(** The event [e] with another R2. *)
Definition with_R2 (e : Event) (r : ThreeVector) : Event :=
  mkEvent (eP1 e) (eR1 e) (eH1 e) (eC1 e) (eP2 e) r (eH2 e) (eC2 e)
          (eY1 e) (eY2 e).

(** A column of numbers for a phase shift that is absent. *)
Definition Y_or_zeros (Y : option (ak R)) (like : ak ThreeVector) : ak R :=
  match Y with
  | Some y => y
  | None => ak_map (fun _ => 0) like
  end.

(** What [_get_pi_a1_DP] keeps of one event that has no pion or at least
    three: nothing, or the second or the third pion; pions after the third
    are not looked at. *)
Definition a1_choice (pions : list Particle) : list Particle :=
  match pions with
  | pion0 :: pion1 :: pion2 :: _ =>
      if closer_to_rho (mass (p4_add pion0 pion1)) (mass (p4_add pion0 pion2))
      then [pion1] else [pion2]
  | _ => []
  end.

(** The events on which the element-wise sums of [_get_pi_a1_DP] can be
    formed: no pion, or at least three. *)
Definition a1_sliceable (pions : list Particle) : Prop :=
  length pions = 0%nat \/ (3 <= length pions)%nat.

(** The first three pions of an event, as the entry of a table. *)
Definition first_three (pions : list Particle)
    : list (Particle * Particle * Particle) :=
  match pions with
  | pion0 :: pion1 :: pion2 :: _ => [(pion0, pion1, pion2)]
  | _ => []
  end.

(** The six names of the input dict, in the order in which
    [PrepareVecsForPhiCP] reads them, and the first of them that a dict
    lacks. *)
Definition six_names : list string :=
  ["p4h1"; "p4h1pi"; "p4h1pi0"; "p4h2"; "p4h2pi"; "p4h2pi0"].

Definition first_missing (d : gmap string (ak Particle)) : option string :=
  List.find (fun k => bool_decide (d !! k = None)) six_names.

(** The six arrays of the input dict have [n] events. *)
Definition input_events (n : nat) (d : gmap string (ak Particle)) : Prop :=
  forall k a, k ∈ six_names -> d !! k = Some a -> length a = n.

(** The a1 algorithm keeps the number of events: on five arrays of [n]
    events it returns, when it returns, an array of [n] events. *)
Definition keeps_events
    (PVC : ak LorentzVector -> ak LorentzVector -> ak LorentzVector ->
           ak LorentzVector -> ak R -> result (ak LorentzVector)) : Prop :=
  forall n P os ss1 ss2 c r,
    length P = n -> length os = n -> length ss1 = n -> length ss2 = n ->
    length c = n -> PVC P os ss1 ss2 c = Ok r -> length r = n.

(** The pairs of method and mode of the docstrings. *)
Definition supported (m d : string) : bool :=
  if String.eqb m "DP" then String.eqb d "rho" || String.eqb d "a1"
  else if String.eqb m "PV" then
    String.eqb d "pi" || String.eqb d "rho" || String.eqb d "a1"
  else if String.eqb m "IP" then
    String.eqb d "e" || String.eqb d "mu" || String.eqb d "pi"
  else false.

(** The ten names in the order in which [ComputeAcopAngle] reads them, the
    first of them that a dict lacks, and the message of the assertion. *)
Definition ten_names_in_order : list string :=
  ["P1"; "R1"; "H1"; "C1"; "P2"; "R2"; "H2"; "C2"; "Y1"; "Y2"].

Definition first_missing_component (d : gmap string value) : option string :=
  List.find (fun k => bool_decide (d !! k = None)) ten_names_in_order.

Definition assert_message : string :=
  "input dict to ComputeAcopAngle does not have proper structure".

(** The same event with the two legs exchanged. *)
Definition swap_legs (e : Event) : Event :=
  mkEvent (eP2 e) (eR2 e) (eH2 e) (eC2 e) (eP1 e) (eR1 e) (eH1 e) (eC1 e)
          (eY2 e) (eY1 e).

(** The same event with every vector reversed (the mirror image); charges
    and phase shifts are kept. *)
Definition mirror (e : Event) : Event :=
  mkEvent (negative (eP1 e)) (negative (eR1 e)) (negative (eH1 e)) (eC1 e)
          (negative (eP2 e)) (negative (eR2 e)) (negative (eH2 e)) (eC2 e)
          (eY1 e) (eY2 e).

(** ** Sample events *)

Definition ex : ThreeVector := mkV3 1 0 0.
Definition ey : ThreeVector := mkV3 0 1 0.
Definition ez : ThreeVector := mkV3 0 0 1.

(** Two legs whose transverse directions are exactly opposite, with phase
    shifts of opposite signs. *)
Definition ev_opposite : Event :=
  mkEvent ez ex ex (-1) (negative ez) (negative ex) (negative ex) 1
          (- (1 / 2)) (1 / 2).

(** Two parallel R vectors whose components overshoot 1 by one part in a
    million, as after a rounded normalisation. *)
Definition ev_overshoot : Event :=
  mkEvent ez (mkV3 (1000001 / 1000000) 0 0) ex (-1)
          (negative ez) (mkV3 (1000001 / 1000000) 0 0) ey 1 0 0.

(** Two legs whose transverse directions are at a right angle, with a
    triple product that is not zero. *)
Definition ev_right_angle : Event :=
  mkEvent ez ex ex (-1) (negative ez) ey ey 1 (1 / 2) (1 / 3).

(** A tau candidate and three charged pions, opposite-sign first. *)
Definition tau_minus : Particle := mkParticle (mkLV 0 0 3 4) (-1) 0 0 0.
Definition pion_os : Particle := mkParticle (mkLV 0 0 1 2) 1 0 0 0.
Definition pion_ss1 : Particle := mkParticle (mkLV 0 1 0 2) (-1) 0 0 0.
Definition pion_ss2 : Particle := mkParticle (mkLV 1 0 0 3) (-1) 0 0 0.

(** Sample collaborators, the textbook formulas, used to run the pipeline on
    a sample input: the velocity p/E of a four-vector, the Lorentz boost by a
    velocity, the unit vector, and a polarimetric vector that is not
    available. *)
Definition sample_boostvec (v : LorentzVector) : ThreeVector :=
  vscale (pvec v) (/ lt v).

Definition sample_boost (v : LorentzVector) (b : ThreeVector) : LorentzVector :=
  let b2 := dot b b in
  let gamma := / sqrt (1 - b2) in
  let bp := dot (pvec v) b in
  let gamma2 := if Req_dec_T b2 0 then 0 else (gamma - 1) / b2 in
  let k := gamma2 * bp + gamma * lt v in
  mkLV (lx v + k * x3 b) (ly v + k * y3 b) (lz v + k * z3 b)
       (gamma * (lt v + bp)).

Definition sample_vunit (v : ThreeVector) : ThreeVector :=
  vscale v (/ sqrt (dot v v)).

Definition sample_PVC (P os ss1 ss2 : ak LorentzVector) (c : ak R)
    : result (ak LorentzVector) :=
  Raise ValueError.

Definition tau_plus : Particle := mkParticle (mkLV 0 0 (-3) 4) 1 0 0 0.

(** On the reals the conversion to single precision changes nothing. *)
Definition sample_float32 (a : float) : float := a.

(** One event of two taus that each decay to one charged pion. *)
Definition sample_p4hcandinfodict : gmap string (ak Particle) :=
  <["p4h1" := [[tau_minus]]]> (<["p4h1pi" := [[pion_ss1]]]>
  (<["p4h1pi0" := [[]]]> (<["p4h2" := [[tau_plus]]]>
  (<["p4h2pi" := [[pion_os]]]> (<["p4h2pi0" := [[]]]> ∅))))).

(** * Properties *)

(** ** Broadcasting *)

Lemma broadcast_to_same {A : Type} (a : ak A) :
  broadcast_to (length a) a = a.
Proof. by destruct a as [|row [|row' a]]. Qed.

Lemma ak_map2_same_length {A B C : Type} (f : A -> B -> C) (a : ak A)
    (b : ak B) :
  length a = length b -> ak_map2 f a b = ak_zip f a b.
Proof.
  intros Hl. unfold ak_map2. rewrite <- Hl, Nat.max_id.
  rewrite broadcast_to_same, Hl, broadcast_to_same. reflexivity.
Qed.

Lemma broadcast_to_Forall {A : Type} (P : list A -> Prop) (n : nat)
    (a : ak A) :
  Forall P a -> Forall P (broadcast_to n a).
Proof.
  intros Ha. destruct a as [|row [|row' a]]; simpl; try assumption.
  apply Forall_replicate. by inversion Ha.
Qed.

(** ** Element-wise operations on the columns of one table *)

Section Columns.
Context {T A B C : Type}.

Lemma zip_strict_columns (f : A -> B -> C) (g : T -> A) (h : T -> B)
    (l : list T) :
  zip_strict (fun x y => Ok (f x y)) (map g l) (map h l)
  = Ok (map (fun t => f (g t) (h t)) l).
Proof.
  induction l as [|t l IH]; simpl; [reflexivity|].
  rewrite IH. reflexivity.
Qed.

Lemma ak_map2_columns (f : A -> B -> C) (g : T -> A) (h : T -> B)
    (E : ak T) :
  ak_map2 f (ak_map g E) (ak_map h E)
  = Ok (ak_map (fun t => f (g t) (h t)) E).
Proof.
  rewrite ak_map2_same_length by (unfold ak_map; by rewrite !length_map).
  unfold ak_zip, ak_map.
  induction E as [|l E IH]; simpl; [reflexivity|].
  rewrite zip_strict_columns. simpl. rewrite IH. reflexivity.
Qed.

Lemma ak_map_columns (f : A -> B) (g : T -> A) (E : ak T) :
  ak_map f (ak_map g E) = ak_map (fun t => f (g t)) E.
Proof.
  unfold ak_map. rewrite map_map. apply map_ext. intros l.
  apply map_map.
Qed.

Lemma ak_map_ext_in (f g : T -> A) (E : ak T) :
  (forall t, f t = g t) -> ak_map f E = ak_map g E.
Proof.
  intros Hfg. unfold ak_map. apply map_ext. intros l.
  apply map_ext. exact Hfg.
Qed.
End Columns.

Lemma ak_where_columns {T A : Type} (c : T -> bool) (g h : T -> A) (E : ak T) :
  ak_where (ak_map c E) (ak_map g E) (ak_map h E)
  = Ok (ak_map (fun t => if c t then g t else h t) E).
Proof.
  unfold ak_where. rewrite ak_map2_columns. unfold bind.
  apply (ak_map2_columns
           (fun (t : bool) (xy : A * A) => if t then fst xy else snd xy)
           c (fun t => (g t, h t))).
Qed.

Lemma ak_map_id {A : Type} (a : ak A) : ak_map (fun x => x) a = a.
Proof.
  unfold ak_map. rewrite <- (map_id a) at 2. apply map_ext. intros l.
  apply map_id.
Qed.

(** ** The array program computes [acop_event] on every entry *)

Lemma wrap_angle_columns {T : Type} (g : T -> float) (E : ak T) :
  wrap_angle (ak_map g E) = Ok (ak_map (fun t => wrap (g t)) E).
Proof.
  unfold wrap_angle.
  rewrite !ak_map_columns, ak_where_columns. simpl.
  rewrite !ak_map_columns, ak_where_columns. simpl.
  reflexivity.
Qed.

Lemma wrap_angle_total (acop : ak float) :
  wrap_angle acop = Ok (ak_map wrap acop).
Proof.
  rewrite <- (ak_map_id acop) at 1. apply wrap_angle_columns.
Qed.

Lemma _getSign_columns (E : ak Event) (C2 : value) :
  _getSign (VVec (ak_map eP1 E)) (VVec (ak_map eH1 E))
           (VVec (ak_map eP2 E)) (VVec (ak_map eH2 E))
           (VNum (ak_map eC1 E)) C2
  = Ok (ak_map sign_event E).
Proof.
  unfold _getSign. simpl.
  rewrite !ak_map_columns, !ak_where_columns. simpl.
  rewrite ak_map2_columns. simpl.
  rewrite ak_map2_columns. reflexivity.
Qed.

(** ** The dict of lines 107-109 *)

Lemma vecsdict_of_size (P1 R1 H1 C1 P2 R2 H2 C2 Y1 Y2 : value) :
  size (vecsdict_of P1 R1 H1 C1 P2 R2 H2 C2 Y1 Y2) = 10%nat.
Proof.
  unfold vecsdict_of.
  repeat (rewrite map_size_insert_None; [|by simplify_map_eq]).
  by rewrite map_size_empty.
Qed.

Lemma vecsdict_of_dom (P1 R1 H1 C1 P2 R2 H2 C2 Y1 Y2 : value) :
  dom (vecsdict_of P1 R1 H1 C1 P2 R2 H2 C2 Y1 Y2) = ten_names.
Proof.
  unfold vecsdict_of, ten_names. rewrite !dom_insert_L, dom_empty_L.
  set_solver.
Qed.

Lemma vecsdict_of_items (P1 R1 H1 C1 P2 R2 H2 C2 Y1 Y2 : value) :
  let d := vecsdict_of P1 R1 H1 C1 P2 R2 H2 C2 Y1 Y2 in
  getitem d "P1" = Ok P1 /\ getitem d "R1" = Ok R1 /\ getitem d "H1" = Ok H1 /\
  getitem d "C1" = Ok C1 /\ getitem d "P2" = Ok P2 /\ getitem d "R2" = Ok R2 /\
  getitem d "H2" = Ok H2 /\ getitem d "C2" = Ok C2 /\ getitem d "Y1" = Ok Y1 /\
  getitem d "Y2" = Ok Y2.
Proof.
  unfold getitem, vecsdict_of. simpl. repeat split; by simplify_map_eq.
Qed.

Lemma ComputeAcopAngle_vecsdict_of (P1 R1 H1 C1 P2 R2 H2 C2 Y1 Y2 : value) :
  ComputeAcopAngle (vecsdict_of P1 R1 H1 C1 P2 R2 H2 C2 Y1 Y2)
  = angle_of_components P1 R1 H1 C1 P2 R2 H2 C2 Y1 Y2.
Proof.
  unfold ComputeAcopAngle.
  rewrite vecsdict_of_size.
  destruct (vecsdict_of_items P1 R1 H1 C1 P2 R2 H2 C2 Y1 Y2)
    as (-> & -> & -> & -> & -> & -> & -> & -> & -> & ->).
  reflexivity.
Qed.

Lemma combine_Y_columns (E : ak Event) (y1 y2 : bool) :
  combine_Y (Y_column y1 eY1 E) (Y_column y2 eY2 E)
  = Ok (match y1, y2 with
        | true, true => Some (VNum (ak_map (fun e => eY1 e * eY2 e) E))
        | true, false => Some (VNum (ak_map eY1 E))
        | false, true => Some (VNum (ak_map eY2 E))
        | false, false => None
        end).
Proof.
  destruct y1, y2; unfold combine_Y; simpl; try reflexivity.
  rewrite ak_map2_columns. reflexivity.
Qed.

Lemma acop_before_wrap_columns (E : ak Event) (y1 y2 : bool) (C2 : value) :
  acop_before_wrap
    (VVec (ak_map eP1 E)) (VVec (ak_map eR1 E)) (VVec (ak_map eH1 E))
    (VNum (ak_map eC1 E))
    (VVec (ak_map eP2 E)) (VVec (ak_map eR2 E)) (VVec (ak_map eH2 E))
    C2 (Y_column y1 eY1 E) (Y_column y2 eY2 E)
  = Ok (ak_map (prewrap_event y1 y2) E).
Proof.
  unfold acop_before_wrap.
  rewrite combine_Y_columns. simpl.
  rewrite ak_map2_columns. simpl.
  rewrite _getSign_columns. simpl.
  rewrite !ak_map_columns, ak_where_columns. simpl.
  destruct y1, y2; simpl;
    rewrite ?ak_map_columns, ?ak_where_columns; reflexivity.
Qed.

Lemma angle_of_components_columns (E : ak Event) (y1 y2 : bool) (C2 : value) :
  angle_of_components
    (VVec (ak_map eP1 E)) (VVec (ak_map eR1 E)) (VVec (ak_map eH1 E))
    (VNum (ak_map eC1 E))
    (VVec (ak_map eP2 E)) (VVec (ak_map eR2 E)) (VVec (ak_map eH2 E))
    C2 (Y_column y1 eY1 E) (Y_column y2 eY2 E)
  = Ok (ak_map (acop_event y1 y2) E).
Proof.
  unfold angle_of_components.
  rewrite acop_before_wrap_columns. simpl.
  apply wrap_angle_columns.
Qed.

(** On the columns of a table of events the program returns, and every entry
    of the result is [acop_event] of the matching entry of the table. *)
Lemma ComputeAcopAngle_events (E : ak Event) (y1 y2 : bool) :
  ComputeAcopAngle (events_dict E y1 y2) = Ok (ak_map (acop_event y1 y2) E).
Proof.
  unfold events_dict. rewrite ComputeAcopAngle_vecsdict_of.
  apply angle_of_components_columns.
Qed.

(** ** Aligned arrays are the columns of one table *)

Lemma shape_ak_map {A B : Type} (f : A -> B) (a : ak A) :
  shape (ak_map f a) = shape a.
Proof.
  unfold shape, ak_map. rewrite map_map. apply map_ext. intros l.
  apply length_map.
Qed.

Lemma columns_pair_list {A B : Type} (a : list A) (b : list B) :
  length a = length b ->
  exists l : list (A * B), a = map fst l /\ b = map snd l.
Proof.
  revert b. induction a as [|x a IH]; intros [|y b] Hlen; try discriminate.
  - by exists [].
  - injection Hlen as Hlen. destruct (IH b Hlen) as (l & -> & ->).
    by exists ((x, y) :: l).
Qed.

Lemma columns_pair {A B : Type} (a : ak A) (b : ak B) :
  shape a = shape b ->
  exists E : ak (A * B), a = ak_map fst E /\ b = ak_map snd E.
Proof.
  revert b. induction a as [|la a IH]; intros [|lb b] Hs; try discriminate.
  - by exists [].
  - injection Hs as Hl Hs. destruct (IH b Hs) as (E & -> & ->).
    destruct (columns_pair_list la lb Hl) as (l & -> & ->).
    by exists (l :: E).
Qed.

Lemma columns_add {T A : Type} (E : ak T) (c : ak A) :
  shape c = shape E ->
  exists E' : ak (T * A), E = ak_map fst E' /\ c = ak_map snd E'.
Proof. intros Hs. apply columns_pair. by symmetry. Qed.

(** Ten arrays of one shape, of the kinds the docstring names, are the
    columns of a table of events. *)
Lemma events_of_columns (P1 R1 H1 P2 R2 H2 : ak ThreeVector)
    (C1 C2 Y1 Y2 : ak R) :
  shape R1 = shape P1 -> shape H1 = shape P1 -> shape C1 = shape P1 ->
  shape P2 = shape P1 -> shape R2 = shape P1 -> shape H2 = shape P1 ->
  shape C2 = shape P1 -> shape Y1 = shape P1 -> shape Y2 = shape P1 ->
  exists E : ak Event,
    P1 = ak_map eP1 E /\ R1 = ak_map eR1 E /\ H1 = ak_map eH1 E /\
    C1 = ak_map eC1 E /\ P2 = ak_map eP2 E /\ R2 = ak_map eR2 E /\
    H2 = ak_map eH2 E /\ C2 = ak_map eC2 E /\ Y1 = ak_map eY1 E /\
    Y2 = ak_map eY2 E.
Proof.
  intros HR1 HH1 HC1 HP2 HR2 HH2 HC2 HY1 HY2.
  destruct (columns_add P1 R1 HR1) as (E1 & -> & ->).
  rewrite !shape_ak_map in *.
  destruct (columns_add E1 H1 HH1) as (E2 & -> & ->).
  rewrite !shape_ak_map in *.
  destruct (columns_add E2 C1 HC1) as (E3 & -> & ->).
  rewrite !shape_ak_map in *.
  destruct (columns_add E3 P2 HP2) as (E4 & -> & ->).
  rewrite !shape_ak_map in *.
  destruct (columns_add E4 R2 HR2) as (E5 & -> & ->).
  rewrite !shape_ak_map in *.
  destruct (columns_add E5 H2 HH2) as (E6 & -> & ->).
  rewrite !shape_ak_map in *.
  destruct (columns_add E6 C2 HC2) as (E7 & -> & ->).
  rewrite !shape_ak_map in *.
  destruct (columns_add E7 Y1 HY1) as (E8 & -> & ->).
  rewrite !shape_ak_map in *.
  destruct (columns_add E8 Y2 HY2) as (E9 & -> & ->).
  exists (ak_map event_of_tuple E9).
  rewrite !ak_map_columns.
  repeat split; apply ak_map_ext_in;
    intros [[[[[[[[[p1 r1] h1] c1] p2] r2] h2] c2] y1] y2]; reflexivity.
Qed.

(** Hence every dict of ten aligned components of the expected kinds is the
    dict of a table of events. *)
Lemma aligned_vecsdict_is_events_dict (P1 R1 H1 P2 R2 H2 : ak ThreeVector)
    (C1 C2 : ak R) (Y1 Y2 : option (ak R)) :
  shape R1 = shape P1 -> shape H1 = shape P1 -> shape C1 = shape P1 ->
  shape P2 = shape P1 -> shape R2 = shape P1 -> shape H2 = shape P1 ->
  shape C2 = shape P1 ->
  (forall y, Y1 = Some y -> shape y = shape P1) ->
  (forall y, Y2 = Some y -> shape y = shape P1) ->
  exists E : ak Event,
    vecsdict_of (VVec P1) (VVec R1) (VVec H1) (VNum C1)
                (VVec P2) (VVec R2) (VVec H2) (VNum C2)
                (value_of_Y Y1) (value_of_Y Y2)
    = events_dict E (bool_decide (is_Some Y1)) (bool_decide (is_Some Y2)).
Proof.
  intros HR1 HH1 HC1 HP2 HR2 HH2 HC2 HY1 HY2.
  destruct (events_of_columns P1 R1 H1 P2 R2 H2 C1 C2
              (Y_or_zeros Y1 P1) (Y_or_zeros Y2 P1))
    as (E & -> & -> & -> & -> & -> & -> & -> & -> & HE1 & HE2);
    try assumption.
  - destruct Y1 as [y|]; simpl; [by apply HY1|apply shape_ak_map].
  - destruct Y2 as [y|]; simpl; [by apply HY2|apply shape_ak_map].
  - exists E. unfold events_dict, Y_column.
    destruct Y1 as [y1|], Y2 as [y2|]; simpl in *; subst; reflexivity.
Qed.

(** ** Real-number facts *)

Ltac real_cases :=
  repeat match goal with
  | |- context [Rlt_dec ?a ?b] => destruct (Rlt_dec a b)
  | |- context [Rle_dec ?a ?b] => destruct (Rle_dec a b)
  | H : context [Rlt_dec ?a ?b] |- _ => destruct (Rlt_dec a b)
  | H : context [Rle_dec ?a ?b] |- _ => destruct (Rle_dec a b)
  end.

Lemma arccos_in_range (x : R) :
  -1 <= x <= 1 -> exists r, arccos x = Num r /\ 0 <= r <= PI.
Proof.
  intros Hx. exists (acos x). split; [|apply acos_bound].
  unfold arccos. real_cases; try reflexivity; lra.
Qed.

Lemma arccos_minus_one : arccos (-1) = Num PI.
Proof.
  unfold arccos. real_cases; try lra.
  f_equal. replace (-1) with (- (1)) by lra. rewrite acos_opp, acos_1. lra.
Qed.

(** ** The range of one entry *)

Lemma sign_step_range (s : R) (a : float) :
  (exists r, a = Num r /\ 0 <= r <= PI) ->
  exists r, sign_step s a = Num r /\ 0 <= r <= 2 * PI.
Proof.
  intros (r & -> & Hr). pose proof PI_RGT_0.
  unfold sign_step, Rltb. real_cases; simpl; eexists; (split; [reflexivity|lra]).
Qed.

Lemma shift_step_range (Y : option R) (a : float) :
  (exists r, a = Num r /\ 0 <= r <= 2 * PI) ->
  exists r, shift_step Y a = Num r /\ 0 <= r <= 3 * PI.
Proof.
  intros (r & -> & Hr). pose proof PI_RGT_0.
  unfold shift_step, Rltb. destruct Y as [y|]; real_cases; simpl;
    eexists; (split; [reflexivity|lra]).
Qed.

Lemma wrap_range (a : float) :
  (exists r, a = Num r /\ 0 <= r <= 3 * PI) -> in_closed (wrap a).
Proof.
  intros (r & -> & Hr). pose proof PI_RGT_0.
  unfold wrap, fgtb, fltb, Rltb. simpl.
  real_cases; simpl; real_cases; simpl; lra.
Qed.

Lemma acop_event_in_domain (y1 y2 : bool) (e : Event) :
  -1 <= dot (eR1 e) (eR2 e) <= 1 -> in_closed (acop_event y1 y2 e).
Proof.
  intros Hd. unfold acop_event, prewrap_event, raw_angle.
  by apply wrap_range, shift_step_range, sign_step_range, arccos_in_range.
Qed.

Lemma arccos_outside (x : R) : ~ -1 <= x <= 1 -> arccos x = NaN.
Proof. intros Hx. unfold arccos. real_cases; try reflexivity. lra. Qed.

Lemma acop_event_outside_domain (y1 y2 : bool) (e : Event) :
  ~ -1 <= dot (eR1 e) (eR2 e) <= 1 -> acop_event y1 y2 e = NaN.
Proof.
  intros Hd. unfold acop_event, prewrap_event, raw_angle.
  rewrite (arccos_outside _ Hd).
  unfold sign_step, shift_step.
  destruct (Rltb (sign_event e) 0), (Y_event y1 y2 e) as [y|]; simpl;
    try destruct (Rltb y 0); reflexivity.
Qed.

Lemma Forall_ak_map {A B : Type} (P : A -> Prop) (Q : B -> Prop)
    (f : A -> B) (a : ak A) :
  (forall x, P x -> Q (f x)) ->
  Forall (Forall P) a -> Forall (Forall Q) (ak_map f a).
Proof.
  intros Hf Ha. unfold ak_map. apply Forall_fmap.
  eapply Forall_impl; [exact Ha|]. intros l Hl. apply Forall_fmap.
  eapply Forall_impl; [exact Hl|]. exact Hf.
Qed.

Lemma Forall2_ak_map {A B : Type} (P : A -> B -> Prop) (f : A -> B) (a : ak A) :
  (forall x, P x (f x)) -> Forall2 (Forall2 P) a (ak_map f a).
Proof.
  intros Hf. unfold ak_map.
  induction a as [|l a IH]; simpl; constructor; [|exact IH].
  induction l as [|x l IHl]; simpl; constructor; [apply Hf|exact IHl].
Qed.

(** ** C1: the boundary value 2 pi is returned *)

Lemma ev_opposite_valid : valid_event ev_opposite.
Proof. unfold valid_event, is_unit, dot; simpl. split; lra. Qed.

Lemma ev_opposite_angle : acop_event true true ev_opposite = Num (2 * PI).
Proof.
  unfold acop_event, prewrap_event, raw_angle.
  replace (dot (eR1 ev_opposite) (eR2 ev_opposite)) with (-1)
    by (unfold dot; simpl; lra).
  rewrite arccos_minus_one. pose proof PI_RGT_0.
  unfold sign_step, sign_event, Y_event, shift_step, wrap, fgtb, fltb, Rltb,
    dot, cross. simpl.
  real_cases; simpl; real_cases; simpl; try lra; f_equal; lra.
Qed.

(** C1, as stated, fails: on a batch of one valid event whose R vectors are
    opposite and whose phase shifts have opposite signs, [ComputeAcopAngle]
    returns the boundary value 2 pi, which is not in [0, 2 pi). *)
Lemma C1_counterexample :
  Forall (Forall valid_event) [[ev_opposite]] /\
  ComputeAcopAngle (events_dict [[ev_opposite]] true true)
    = Ok [[Num (2 * PI)]] /\
  ~ in_half_open (Num (2 * PI)).
Proof.
  split; [|split].
  - repeat constructor; apply ev_opposite_valid.
  - rewrite ComputeAcopAngle_events. simpl. by rewrite ev_opposite_angle.
  - simpl. lra.
Qed.

(** ** C2: the argument of arccos is not clipped *)

(** C2, as stated, fails: the dot product is passed to arccos as it is.  On
    two parallel R vectors whose dot product exceeds 1 by about two parts in
    a million the computation returns NaN. *)
Lemma C2_counterexample :
  1 < dot (eR1 ev_overshoot) (eR2 ev_overshoot) < 1 + 3 / 1000000 /\
  ComputeAcopAngle (events_dict [[ev_overshoot]] false false) = Ok [[NaN]].
Proof.
  assert (Hd : 1 < dot (eR1 ev_overshoot) (eR2 ev_overshoot) < 1 + 3 / 1000000)
    by (unfold dot; simpl; lra).
  split; [exact Hd|].
  rewrite ComputeAcopAngle_events. simpl.
  rewrite acop_event_outside_domain; [reflexivity|lra].
Qed.

(** C2 (amended): the dot product of the R vectors is the argument of arccos,
    without clipping.  For every batch the computation returns; an entry of
    the result is a real angle of [0, 2 pi] when the dot product of its R
    vectors lies in [-1, 1], and is NaN when it lies outside. *)
Theorem C2_nan_outside_domain (E : ak Event) (y1 y2 : bool) :
  exists out,
    ComputeAcopAngle (events_dict E y1 y2) = Ok out /\
    Forall2 (Forall2 (fun e a =>
      (-1 <= dot (eR1 e) (eR2 e) <= 1 -> in_closed a) /\
      (~ -1 <= dot (eR1 e) (eR2 e) <= 1 -> a = NaN))) E out.
Proof.
  exists (ak_map (acop_event y1 y2) E). split.
  - apply ComputeAcopAngle_events.
  - apply Forall2_ak_map. intros e. split.
    + apply acop_event_in_domain.
    + apply acop_event_outside_domain.
Qed.

(** ** C5: the sign correction *)

Lemma sign_event_spec (neg pos : leg) (e : Event) :
  leg_C neg e = -1 -> leg_C pos e = 1 -> sign_event e = spec_sign neg pos e.
Proof.
  unfold sign_event, spec_sign, Rltb.
  destruct neg, pos; simpl; intros Hn Hp; real_cases; try reflexivity; lra.
Qed.

Lemma sign_step_spec (sign : R) (raw : float) :
  sign_step sign raw = spec_sign_correction sign raw.
Proof.
  unfold sign_step, spec_sign_correction, Rltb. by destruct (Rlt_dec sign 0).
Qed.

(** C5: on a batch whose entries have opposite unit charges the computation
    returns, and for every entry there are a leg [neg] of charge -1 and a leg
    [pos] of charge +1 such that the angle is the wrapped, phase-shifted value
    of the raw arccos angle corrected by the sign
    [P_neg . (H_pos x H_neg)]: replaced by 2 pi minus itself exactly when the
    sign is negative. *)
Theorem C5_sign_correction (E : ak Event) (y1 y2 : bool) :
  Forall (Forall opposite_unit_charges) E ->
  exists out,
    ComputeAcopAngle (events_dict E y1 y2) = Ok out /\
    Forall2 (Forall2 (fun e a =>
      exists neg pos,
        leg_C neg e = -1 /\ leg_C pos e = 1 /\
        a = wrap (shift_step (Y_event y1 y2 e)
                    (spec_sign_correction (spec_sign neg pos e)
                                          (raw_angle e))))) E out.
Proof.
  intros HE. exists (ak_map (acop_event y1 y2) E). split.
  - apply ComputeAcopAngle_events.
  - unfold ak_map.
    induction HE as [|l E Hl _ IH]; simpl; constructor; [|exact IH].
    induction Hl as [|e l He _ IHl]; simpl; constructor; [|exact IHl].
    unfold acop_event, prewrap_event. rewrite sign_step_spec.
    destruct He as [[H1 H2]|[H1 H2]].
    + exists Leg1, Leg2. repeat split; try assumption.
      by rewrite (sign_event_spec Leg1 Leg2).
    + exists Leg2, Leg1. repeat split; try assumption.
      by rewrite (sign_event_spec Leg2 Leg1).
Qed.

Lemma C5_sign_correction_witness :
  exists out,
    ComputeAcopAngle (events_dict [[ev_opposite]] true true) = Ok out /\
    Forall2 (Forall2 (fun e a =>
      exists neg pos,
        leg_C neg e = -1 /\ leg_C pos e = 1 /\
        a = wrap (shift_step (Y_event true true e)
                    (spec_sign_correction (spec_sign neg pos e)
                                          (raw_angle e)))))
      [[ev_opposite]] out.
Proof.
  apply (C5_sign_correction [[ev_opposite]] true true).
  apply Forall_singleton, Forall_singleton. left. split; reflexivity.
Defined.

(** ** C6: the phase shift *)

Lemma Y_event_spec (y1 y2 : bool) (e : Event) :
  Y_event y1 y2 e = spec_combined_Y (Y_of y1 (eY1 e)) (Y_of y2 (eY2 e)).
Proof. by destruct y1, y2. Qed.

(** C6: for every batch the computation returns, and for every entry, with
    Y the product of the two phase shifts when both are present, the one
    present when exactly one is, and absent when neither is, and with s the
    angle after the sign step: the angle returned is the wrap of s + pi when
    Y is present and negative, and the wrap of s when Y is present and not
    negative or absent. *)
Theorem C6_phase_shift (E : ak Event) (y1 y2 : bool) :
  exists out,
    ComputeAcopAngle (events_dict E y1 y2) = Ok out /\
    Forall2 (Forall2 (fun e a =>
      let s := sign_step (sign_event e) (raw_angle e) in
      let Y := spec_combined_Y (Y_of y1 (eY1 e)) (Y_of y2 (eY2 e)) in
      (forall y, Y = Some y -> y < 0 -> a = wrap (fadd s (Num PI))) /\
      (forall y, Y = Some y -> 0 <= y -> a = wrap s) /\
      (Y = None -> a = wrap s))) E out.
Proof.
  exists (ak_map (acop_event y1 y2) E). split.
  - apply ComputeAcopAngle_events.
  - apply Forall2_ak_map. intros e. cbv zeta.
    unfold acop_event, prewrap_event. rewrite Y_event_spec.
    destruct (spec_combined_Y _ _) as [y|]; unfold shift_step, Rltb;
      repeat split; try discriminate; intros; simplify_eq;
      real_cases; try reflexivity; lra.
Qed.

(** ** C10: the charge of the second leg is not read *)

Lemma angle_of_components_C2 (P1 R1 H1 C1 P2 R2 H2 C2 C2' Y1 Y2 : value) :
  angle_of_components P1 R1 H1 C1 P2 R2 H2 C2 Y1 Y2
  = angle_of_components P1 R1 H1 C1 P2 R2 H2 C2' Y1 Y2.
Proof. reflexivity. Qed.

Lemma ComputeAcopAngle_C2 (d : gmap string value) (v v' : value) :
  ComputeAcopAngle (<["C2" := v]> d) = ComputeAcopAngle (<["C2" := v']> d).
Proof.
  unfold ComputeAcopAngle, getitem.
  rewrite !map_size_insert, lookup_insert_eq.
  destruct (assert _ _); simpl; [|reflexivity].
  repeat (rewrite ?lookup_insert_eq, ?lookup_insert_ne by done; simpl;
          match goal with
          | |- context [d !! ?k] => destruct (d !! k); simpl; [|reflexivity]
          end).
  rewrite ?lookup_insert_eq, ?lookup_insert_ne by done; simpl.
  apply angle_of_components_C2.
Qed.

(** C10: [_getSign] does not depend on [C2]; on a batch its value for an
    entry is [P1 . (H2 x H1)] when [C1 < 0] and [P2 . (H1 x H2)] when
    [C1 >= 0], whatever [C2]; and two runs of [ComputeAcopAngle] on dicts that
    differ only in the value stored under C2 give the same result. *)
Theorem C10_C2_not_read :
  (forall P1 H1 P2 H2 C1 C2 C2' : value,
     _getSign P1 H1 P2 H2 C1 C2 = _getSign P1 H1 P2 H2 C1 C2') /\
  (forall (E : ak Event) (C2 : value),
     exists sign,
       _getSign (VVec (ak_map eP1 E)) (VVec (ak_map eH1 E))
                (VVec (ak_map eP2 E)) (VVec (ak_map eH2 E))
                (VNum (ak_map eC1 E)) C2 = Ok sign /\
       Forall2 (Forall2 (fun e s =>
         (eC1 e < 0 -> s = dot (eP1 e) (cross (eH2 e) (eH1 e))) /\
         (0 <= eC1 e -> s = dot (eP2 e) (cross (eH1 e) (eH2 e))))) E sign) /\
  (forall (d : gmap string value) (v v' : value),
     ComputeAcopAngle (<["C2" := v]> d) = ComputeAcopAngle (<["C2" := v']> d)).
Proof.
  split; [|split].
  - reflexivity.
  - intros E C2. exists (ak_map sign_event E). split.
    + apply _getSign_columns.
    + apply Forall2_ak_map. intros e. unfold sign_event, Rltb.
      split; intros Hc; real_cases; try reflexivity; lra.
  - apply ComputeAcopAngle_C2.
Qed.

(** ** Inversion of the element-wise operations *)

Lemma bind_Ok {A B : Type} (r : result A) (k : A -> result B) (b : B) :
  bind r k = Ok b -> exists a, r = Ok a /\ k a = Ok b.
Proof. destruct r as [a|e]; simpl; [eauto|discriminate]. Qed.

Ltac inv_bind H :=
  let a := fresh "a" in
  let Ha := fresh "Ha" in
  apply bind_Ok in H; destruct H as (a & Ha & H).

Lemma zip_strict_Forall {A B C : Type} (f : A -> B -> result C)
    (P : A -> Prop) (Q : B -> Prop) (S : C -> Prop) :
  (forall x y z, P x -> Q y -> f x y = Ok z -> S z) ->
  forall a b c, zip_strict f a b = Ok c ->
    Forall P a -> Forall Q b -> Forall S c.
Proof.
  intros Hf a. induction a as [|x a IH]; intros [|y b] c Hz Ha Hb;
    simpl in Hz; try discriminate.
  - injection Hz as <-. constructor.
  - inv_bind Hz. inv_bind Hz. injection Hz as <-.
    inversion Ha; inversion Hb; subst. constructor; eauto.
Qed.

Lemma ak_map2_Forall {A B C : Type} (f : A -> B -> C)
    (P : A -> Prop) (Q : B -> Prop) (S : C -> Prop) (a : ak A) (b : ak B)
    (c : ak C) :
  (forall x y, P x -> Q y -> S (f x y)) ->
  ak_map2 f a b = Ok c ->
  Forall (Forall P) a -> Forall (Forall Q) b -> Forall (Forall S) c.
Proof.
  intros Hf Hz Ha Hb. unfold ak_map2, ak_zip in Hz.
  eapply (zip_strict_Forall _ (Forall P) (Forall Q) (Forall S));
    [| exact Hz | by apply broadcast_to_Forall | by apply broadcast_to_Forall].
  intros la lb lc Hla Hlb Hz'. revert Hz' Hla Hlb. apply zip_strict_Forall.
  intros x y z Hx Hy [= <-]. by apply Hf.
Qed.

Lemma Forall_Forall_True {A : Type} (a : ak A) :
  Forall (Forall (fun _ => True)) a.
Proof. apply Forall_forall. intros l _. by apply Forall_forall. Qed.

Lemma ak_where_Forall {A : Type} (P : A -> Prop) (c : ak bool) (a b r : ak A) :
  ak_where c a b = Ok r ->
  Forall (Forall P) a -> Forall (Forall P) b -> Forall (Forall P) r.
Proof.
  unfold ak_where. intros H Ha Hb. inv_bind H.
  eapply (ak_map2_Forall _ (fun _ => True) (fun xy => P xy.1 /\ P xy.2));
    [| exact H | apply Forall_Forall_True |].
  - intros [] [x y] _ [Hx Hy]; assumption.
  - eapply ak_map2_Forall; [| exact Ha0 | exact Ha | exact Hb].
    intros x y Hx Hy. by split.
Qed.

(** ** C9: the wrap is idempotent on the angles of the pipeline *)

Lemma arccos_nan_or_upto (x : R) : nan_or_upto 1 (arccos x).
Proof.
  unfold nan_or_upto, arccos. real_cases; [right|left|left]; try reflexivity.
  exists (acos x). split; [reflexivity|]. pose proof (acos_bound x). lra.
Qed.

Lemma nan_or_upto_mono (k k' : R) (a : float) :
  k <= k' -> nan_or_upto k a -> nan_or_upto k' a.
Proof.
  pose proof PI_RGT_0.
  intros Hk [->|(r & -> & Hr)]; [by left|right].
  exists r. split; [reflexivity|nra].
Qed.

Lemma Forall_Forall_impl {A : Type} (P Q : A -> Prop) (a : ak A) :
  (forall x, P x -> Q x) -> Forall (Forall P) a -> Forall (Forall Q) a.
Proof.
  intros HPQ Ha. eapply Forall_impl; [exact Ha|]. intros l Hl.
  eapply Forall_impl; [exact Hl|]. exact HPQ.
Qed.

Lemma acop_before_wrap_range (P1 R1 H1 C1 P2 R2 H2 C2 Y1 Y2 : value)
    (pre : ak float) :
  acop_before_wrap P1 R1 H1 C1 P2 R2 H2 C2 Y1 Y2 = Ok pre ->
  Forall (Forall (nan_or_upto 3)) pre.
Proof.
  unfold acop_before_wrap. intros H. pose proof PI_RGT_0 as Hpi.
  inv_bind H. inv_bind H. inv_bind H. inv_bind H. cbv zeta in H.
  inv_bind H. inv_bind H. inv_bind H. injection H as <-.
  assert (H0 : Forall (Forall (nan_or_upto 1)) (ak_map arccos a2)).
  { eapply Forall_ak_map; [|apply Forall_Forall_True].
    intros x _. apply arccos_nan_or_upto. }
  assert (H1' : Forall (Forall (nan_or_upto 2)) a4).
  { eapply ak_where_Forall; [exact Ha4| |].
    - eapply Forall_ak_map; [|exact H0].
      intros x [->|(r & -> & Hr)]; [by left|right]. simpl.
      eexists. split; [reflexivity|lra].
    - eapply Forall_Forall_impl; [|exact H0].
      intros x. apply nan_or_upto_mono. lra. }
  destruct a as [y|].
  - apply bind_Ok in Ha5 as (yn & _ & Ha5).
    eapply ak_where_Forall; [exact Ha5| |].
    + eapply Forall_ak_map; [|exact H1'].
      intros x [->|(r & -> & Hr)]; [by left|right]. simpl.
      eexists. split; [reflexivity|lra].
    + eapply Forall_Forall_impl; [|exact H1'].
      intros x. apply nan_or_upto_mono. lra.
  - injection Ha5 as <-.
    eapply Forall_Forall_impl; [|exact H1'].
    intros x. apply nan_or_upto_mono. lra.
Qed.

Lemma wrap_idempotent (a : float) :
  nan_or_upto 3 a -> wrap (wrap a) = wrap a.
Proof.
  pose proof PI_RGT_0.
  intros [->|(r & -> & Hr)]; [reflexivity|].
  unfold wrap, fgtb, fltb, Rltb. simpl.
  real_cases; simpl; real_cases; simpl; real_cases; simpl; real_cases;
    try reflexivity; lra.
Qed.

Lemma ak_map_fixed {A : Type} (f : A -> A) (a : ak A) :
  Forall (Forall (fun x => f x = x)) a -> ak_map f a = a.
Proof.
  intros Ha. unfold ak_map.
  induction Ha as [|l a Hl _ IH]; simpl; [reflexivity|]. f_equal; [|exact IH].
  induction Hl as [|x l Hx _ IHl]; simpl; [reflexivity|]. by f_equal.
Qed.

(** Outside the pipeline the wrap is not idempotent: 5 pi goes to 3 pi and
    then to pi. *)
Lemma wrap_not_idempotent_in_general :
  wrap (wrap (Num (5 * PI))) <> wrap (Num (5 * PI)).
Proof.
  pose proof PI_RGT_0.
  unfold wrap, fgtb, fltb, Rltb. simpl.
  real_cases; simpl; real_cases; simpl; real_cases; simpl; real_cases;
    try lra; intros [= Heq]; lra.
Qed.

(** C9: whenever the computation reaches the wrapping step, with the array
    [pre] of angles before the wrap, the wrap of [pre] returns an array [w]
    and the wrap of [w] returns [w] again. *)
Theorem C9_wrap_idempotent (P1 R1 H1 C1 P2 R2 H2 C2 Y1 Y2 : value)
    (pre : ak float) :
  acop_before_wrap P1 R1 H1 C1 P2 R2 H2 C2 Y1 Y2 = Ok pre ->
  exists w,
    wrap_angle pre = Ok w /\
    wrap_angle w = Ok w /\
    angle_of_components P1 R1 H1 C1 P2 R2 H2 C2 Y1 Y2 = Ok w.
Proof.
  intros Hpre. exists (ak_map wrap pre).
  split; [apply wrap_angle_total|]. split.
  - rewrite wrap_angle_total. f_equal. apply ak_map_fixed.
    eapply Forall_ak_map; [|exact (acop_before_wrap_range _ _ _ _ _ _ _ _ _ _ _ Hpre)].
    intros x Hx. by apply wrap_idempotent.
  - unfold angle_of_components. rewrite Hpre. simpl. apply wrap_angle_total.
Qed.

Lemma C9_wrap_idempotent_witness :
  exists w,
    wrap_angle (ak_map (prewrap_event true true) [[ev_opposite]]) = Ok w /\
    wrap_angle w = Ok w /\
    angle_of_components
      (VVec (ak_map eP1 [[ev_opposite]])) (VVec (ak_map eR1 [[ev_opposite]]))
      (VVec (ak_map eH1 [[ev_opposite]])) (VNum (ak_map eC1 [[ev_opposite]]))
      (VVec (ak_map eP2 [[ev_opposite]])) (VVec (ak_map eR2 [[ev_opposite]]))
      (VVec (ak_map eH2 [[ev_opposite]])) (VNum (ak_map eC2 [[ev_opposite]]))
      (Y_column true eY1 [[ev_opposite]]) (Y_column true eY2 [[ev_opposite]])
    = Ok w.
Proof.
  apply C9_wrap_idempotent.
  apply (acop_before_wrap_columns [[ev_opposite]] true true).
Defined.

(** ** C8: the structure of the dict *)

Lemma size_ten_names : size ten_names = 10%nat.
Proof. reflexivity. Qed.

Lemma lookups_of_dom (d : gmap string value) :
  dom d = ten_names ->
  forall k, k ∈ ten_names -> exists v, d !! k = Some v.
Proof.
  intros Hd k Hk. rewrite <- Hd in Hk. by apply elem_of_dom in Hk.
Qed.

Lemma dom_of_lookups (d : gmap string value) :
  size d = 10%nat ->
  (forall k, k ∈ ten_names -> is_Some (d !! k)) ->
  dom d = ten_names.
Proof.
  intros Hsize Hk. symmetry. apply set_subseteq_size_eq.
  - intros k Hin. apply elem_of_dom. by apply Hk.
  - rewrite size_dom, Hsize, size_ten_names. done.
Qed.

(** The numeric work raises no structural error. *)

Lemma numeric_only_Ok {A : Type} (a : A) : numeric_only (Ok a).
Proof. intros e. discriminate. Qed.

Lemma numeric_only_bind {A B : Type} (r : result A) (k : A -> result B) :
  numeric_only r -> (forall a, numeric_only (k a)) -> numeric_only (bind r k).
Proof.
  intros Hr Hk e. destruct r as [a|e']; simpl.
  - apply Hk.
  - intros [= <-]. by apply Hr.
Qed.

Lemma numeric_only_zip_strict {A B C : Type} (f : A -> B -> result C)
    (a : list A) (b : list B) :
  (forall x y, numeric_only (f x y)) -> numeric_only (zip_strict f a b).
Proof.
  intros Hf. revert b. induction a as [|x a IH]; intros [|y b]; simpl;
    try apply numeric_only_Ok; try (intros e [= <-]; reflexivity).
  apply numeric_only_bind; [apply Hf|]. intros c.
  apply numeric_only_bind; [apply IH|]. intros cs. apply numeric_only_Ok.
Qed.

Lemma numeric_only_ak_map2 {A B C : Type} (f : A -> B -> C) (a : ak A)
    (b : ak B) :
  numeric_only (ak_map2 f a b).
Proof.
  unfold ak_map2, ak_zip. apply numeric_only_zip_strict. intros la lb.
  apply numeric_only_zip_strict. intros x y. apply numeric_only_Ok.
Qed.

Lemma numeric_only_ak_where {A : Type} (c : ak bool) (a b : ak A) :
  numeric_only (ak_where c a b).
Proof.
  unfold ak_where. apply numeric_only_bind; [apply numeric_only_ak_map2|].
  intros ab. apply numeric_only_ak_map2.
Qed.

Lemma numeric_only_as_vec (v : value) : numeric_only (as_vec v).
Proof. destruct v; simpl; intros e [= <-]; reflexivity. Qed.

Lemma numeric_only_as_branch (v : value) : numeric_only (as_branch v).
Proof. destruct v; simpl; intros e [= <-]; reflexivity. Qed.

Lemma numeric_only_as_num (v : value) : numeric_only (as_num v).
Proof. destruct v; simpl; intros e [= <-]; reflexivity. Qed.

Ltac numeric_only_step :=
  first
    [ apply numeric_only_Ok
    | apply numeric_only_as_vec
    | apply numeric_only_as_branch
    | apply numeric_only_as_num
    | apply numeric_only_ak_map2
    | apply numeric_only_ak_where
    | apply numeric_only_bind; [|intros ?] ].

Lemma numeric_only_angle_of_components
    (P1 R1 H1 C1 P2 R2 H2 C2 Y1 Y2 : value) :
  numeric_only (angle_of_components P1 R1 H1 C1 P2 R2 H2 C2 Y1 Y2).
Proof.
  unfold angle_of_components, acop_before_wrap, wrap_angle, _getSign,
    combine_Y.
  repeat numeric_only_step;
    try (destruct Y1, Y2; repeat numeric_only_step);
    try (match goal with |- numeric_only (match ?y with _ => _ end) =>
           destruct y end; repeat numeric_only_step).
Qed.

Lemma ComputeAcopAngle_accepts (d : gmap string value) :
  dom d = ten_names ->
  exists P1 R1 H1 C1 P2 R2 H2 C2 Y1 Y2,
    d = vecsdict_of P1 R1 H1 C1 P2 R2 H2 C2 Y1 Y2 /\
    ComputeAcopAngle d = angle_of_components P1 R1 H1 C1 P2 R2 H2 C2 Y1 Y2.
Proof.
  intros Hd. pose proof (lookups_of_dom d Hd) as Hk.
  destruct (Hk "P1") as [P1 HP1]; [set_solver|].
  destruct (Hk "R1") as [R1 HR1]; [set_solver|].
  destruct (Hk "H1") as [H1 HH1]; [set_solver|].
  destruct (Hk "C1") as [C1 HC1]; [set_solver|].
  destruct (Hk "P2") as [P2 HP2]; [set_solver|].
  destruct (Hk "R2") as [R2 HR2]; [set_solver|].
  destruct (Hk "H2") as [H2 HH2]; [set_solver|].
  destruct (Hk "C2") as [C2 HC2]; [set_solver|].
  destruct (Hk "Y1") as [Y1 HY1]; [set_solver|].
  destruct (Hk "Y2") as [Y2 HY2]; [set_solver|].
  exists P1, R1, H1, C1, P2, R2, H2, C2, Y1, Y2.
  assert (Heq : d = vecsdict_of P1 R1 H1 C1 P2 R2 H2 C2 Y1 Y2).
  { apply map_eq. intros k.
    destruct (decide (k ∈ ten_names)) as [Hin|Hnin].
    - unfold vecsdict_of. unfold ten_names in Hin.
      repeat (apply elem_of_union in Hin as [Hin|Hin]);
        apply elem_of_singleton in Hin; subst k; by simplify_map_eq.
    - assert (d !! k = None) as ->
        by (apply not_elem_of_dom; by rewrite Hd).
      symmetry. apply not_elem_of_dom.
      by rewrite (vecsdict_of_dom P1 R1 H1 C1 P2 R2 H2 C2 Y1 Y2). }
  split; [exact Heq|]. rewrite Heq at 1. apply ComputeAcopAngle_vecsdict_of.
Qed.

Lemma ComputeAcopAngle_rejects (d : gmap string value) :
  dom d <> ten_names ->
  exists e, ComputeAcopAngle d = Raise e /\ is_structural e = true.
Proof.
  intros Hd. unfold ComputeAcopAngle.
  destruct (Nat.eqb (size d) 10) eqn:Hsize; simpl;
    [|eexists; split; reflexivity].
  apply Nat.eqb_eq in Hsize.
  unfold getitem.
  repeat (match goal with
          | |- context [d !! ?k] =>
              let H := fresh "Hk" in
              destruct (d !! k) eqn:H; simpl;
              [|eexists; split; reflexivity]
          end).
  exfalso. apply Hd. apply dom_of_lookups; [exact Hsize|].
  intros k Hin. unfold ten_names in Hin.
  repeat (apply elem_of_union in Hin as [Hin|Hin]);
    apply elem_of_singleton in Hin; subst k; eauto.
Qed.

(** C8: a dict whose names are exactly the ten expected ones passes the
    structural check, and the numeric work is run on its ten components; a
    dict whose names are not exactly these ten fails with a structural error
    (the failed assertion on the size, or a missing key); and the numeric
    work itself raises no structural error, so a structural error is raised
    before it starts. *)
Theorem C8_structure_of_the_dict (d : gmap string value) :
  (dom d = ten_names ->
   exists P1 R1 H1 C1 P2 R2 H2 C2 Y1 Y2,
     d = vecsdict_of P1 R1 H1 C1 P2 R2 H2 C2 Y1 Y2 /\
     ComputeAcopAngle d = angle_of_components P1 R1 H1 C1 P2 R2 H2 C2 Y1 Y2 /\
     forall e, ComputeAcopAngle d = Raise e -> is_structural e = false) /\
  (dom d <> ten_names ->
   exists e, ComputeAcopAngle d = Raise e /\ is_structural e = true).
Proof.
  split.
  - intros Hd.
    destruct (ComputeAcopAngle_accepts d Hd)
      as (P1 & R1 & H1 & C1 & P2 & R2 & H2 & C2 & Y1 & Y2 & Heq & Hrun).
    exists P1, R1, H1, C1, P2, R2, H2, C2, Y1, Y2.
    split; [exact Heq|]. split; [exact Hrun|].
    rewrite Hrun. apply numeric_only_angle_of_components.
  - apply ComputeAcopAngle_rejects.
Qed.

Lemma C8_structure_of_the_dict_witness :
  exists e, ComputeAcopAngle ∅ = Raise e /\ is_structural e = true.
Proof.
  apply (proj2 (C8_structure_of_the_dict ∅)).
  rewrite dom_empty_L. intros Heq.
  assert (Hin : "P1" ∈ ten_names) by (unfold ten_names; set_solver).
  rewrite <- Heq in Hin. by apply not_elem_of_empty in Hin.
Defined.

(** ** C1: the range of the angle *)

Lemma ComputeAcopAngle_Ok_inv (d : gmap string value) (out : ak float) :
  ComputeAcopAngle d = Ok out ->
  exists P1 R1 H1 C1 P2 R2 H2 C2 Y1 Y2 pre,
    d = vecsdict_of P1 R1 H1 C1 P2 R2 H2 C2 Y1 Y2 /\
    acop_before_wrap P1 R1 H1 C1 P2 R2 H2 C2 Y1 Y2 = Ok pre /\
    out = ak_map wrap pre.
Proof.
  intros H.
  destruct (decide (dom d = ten_names)) as [Hd|Hd].
  - destruct (ComputeAcopAngle_accepts d Hd)
      as (P1 & R1 & H1 & C1 & P2 & R2 & H2 & C2 & Y1 & Y2 & Heq & Hrun).
    rewrite Hrun in H. unfold angle_of_components in H.
    apply bind_Ok in H as (pre & Hpre & H).
    rewrite wrap_angle_total in H. injection H as <-.
    by exists P1, R1, H1, C1, P2, R2, H2, C2, Y1, Y2, pre.
  - destruct (ComputeAcopAngle_rejects d Hd) as (e & He & _). congruence.
Qed.

Lemma wrap_upto (a : float) : nan_or_upto 3 a -> nan_or_upto 2 (wrap a).
Proof.
  pose proof PI_RGT_0.
  intros [->|(r & -> & Hr)]; [by left|right].
  unfold wrap, fgtb, fltb, Rltb. simpl.
  real_cases; simpl; real_cases; simpl; eexists;
    (split; [reflexivity|lra]).
Qed.

Lemma nan_or_upto_closed (a : float) : nan_or_upto 2 a -> nan_or_closed a.
Proof. intros [->|(r & -> & Hr)]; [by left|by right]. Qed.

Lemma ComputeAcopAngle_range (d : gmap string value) (out : ak float) :
  ComputeAcopAngle d = Ok out -> Forall (Forall nan_or_closed) out.
Proof.
  intros H.
  destruct (ComputeAcopAngle_Ok_inv d out H)
    as (P1 & R1 & H1 & C1 & P2 & R2 & H2 & C2 & Y1 & Y2 & pre &
        _ & Hpre & ->).
  eapply Forall_ak_map;
    [|exact (acop_before_wrap_range _ _ _ _ _ _ _ _ _ _ _ Hpre)].
  intros a Ha. by apply nan_or_upto_closed, wrap_upto.
Qed.

Lemma acop_event_in_closed_iff (y1 y2 : bool) (e : Event) :
  in_closed (acop_event y1 y2 e) <-> -1 <= dot (eR1 e) (eR2 e) <= 1.
Proof.
  split; [|apply acop_event_in_domain].
  intros Hin.
  destruct (Rle_dec (-1) (dot (eR1 e) (eR2 e))) as [Hlo|Hlo];
    [destruct (Rle_dec (dot (eR1 e) (eR2 e)) 1) as [Hhi|Hhi]; [by split|]|];
    rewrite acop_event_outside_domain in Hin by lra; contradiction.
Qed.

(** C1 (amended): every angle that [ComputeAcopAngle] returns, on any dict,
    is NaN or a number of the closed interval [0, 2 pi]; on a batch of events
    it returns, and an angle is a number of [0, 2 pi] exactly for the entries
    whose dot product of the R vectors, as computed, lies in [-1, 1]; and
    every value that [GetPhiCP] returns is the conversion to single precision
    of NaN or of a number of [0, 2 pi]. *)
Theorem C1_angle_in_closed_interval :
  (forall (d : gmap string value) (out : ak float),
     ComputeAcopAngle d = Ok out -> Forall (Forall nan_or_closed) out) /\
  (forall (E : ak Event) (y1 y2 : bool),
     exists out,
       ComputeAcopAngle (events_dict E y1 y2) = Ok out /\
       Forall2 (Forall2 (fun e a =>
         in_closed a <-> -1 <= dot (eR1 e) (eR2 e) <= 1)) E out) /\
  (forall (boost : LorentzVector -> ThreeVector -> LorentzVector)
          (boostvec : LorentzVector -> ThreeVector)
          (vunit : ThreeVector -> ThreeVector)
          (PolarimetricA1_PVC :
             ak LorentzVector -> ak LorentzVector -> ak LorentzVector ->
             ak LorentzVector -> ak R -> result (ak LorentzVector))
          (astype_float32 : float -> float)
          (d : gmap string (ak Particle)) (m1 m2 d1 d2 : string)
          (phicp : ak float),
     GetPhiCP boost boostvec vunit PolarimetricA1_PVC astype_float32
              d m1 m2 d1 d2 = Ok phicp ->
     Forall (Forall (fun a =>
       exists b, nan_or_closed b /\ a = astype_float32 b)) phicp).
Proof.
  split; [exact ComputeAcopAngle_range|split].
  - intros E y1 y2. exists (ak_map (acop_event y1 y2) E). split.
    + apply ComputeAcopAngle_events.
    + apply Forall2_ak_map. intros e. apply acop_event_in_closed_iff.
  - intros boost boostvec vunit PVC astype_float32 d m1 m2 d1 d2 phicp H.
    unfold GetPhiCP in H.
    apply bind_Ok in H as (vecs & _ & H).
    apply bind_Ok in H as (angles & Hrun & H). injection H as <-.
    eapply Forall_ak_map; [|exact (ComputeAcopAngle_range _ _ Hrun)].
    intros b Hb. by exists b.
Qed.

Lemma C1_angle_in_closed_interval_witness :
  Forall (Forall nan_or_closed) [[Num (2 * PI)]].
Proof.
  apply (proj1 C1_angle_in_closed_interval
           (events_dict [[ev_opposite]] true true)).
  rewrite ComputeAcopAngle_events. simpl. by rewrite ev_opposite_angle.
Defined.

(** ** C7: the vectors of an a1 decay in the DP method *)

Lemma triples_of_lengths (L : ak Particle) :
  Forall (fun l => length l = 3%nat) L ->
  exists T : list (Particle * Particle * Particle), L = map triple_list T.
Proof.
  induction 1 as [|l L Hl _ [T ->]]; [by exists []|].
  destruct l as [|a [|b [|c [|? ?]]]]; try discriminate.
  by exists ((a, b, c) :: T).
Qed.

Lemma fabs_fsub_sym (a b : float) : fabs (fsub a b) = fabs (fsub b a).
Proof. destruct a, b; simpl; try reflexivity. by rewrite Rabs_minus_sym. Qed.

Lemma _get_pi_a1_DP_triples (T : list (Particle * Particle * Particle)) :
  _get_pi_a1_DP (map triple_list T) = Ok (map spec_a1_P (map triple_list T)).
Proof.
  set (Tb := map (fun t => [t]) T : ak (Particle * Particle * Particle)).
  assert (H0 : ak_slice 0 1 (map triple_list T) = ak_map (fun t => t.1.1) Tb)
    by (unfold ak_slice, ak_map, Tb; rewrite !map_map; reflexivity).
  assert (H1 : ak_slice 1 2 (map triple_list T) = ak_map (fun t => t.1.2) Tb)
    by (unfold ak_slice, ak_map, Tb; rewrite !map_map; reflexivity).
  assert (H2 : ak_slice 2 3 (map triple_list T) = ak_map (fun t => t.2) Tb)
    by (unfold ak_slice, ak_map, Tb; rewrite !map_map; reflexivity).
  unfold _get_pi_a1_DP. rewrite H0, H1, H2.
  rewrite !ak_map2_columns. simpl.
  rewrite !ak_map_columns, ak_map2_columns. simpl.
  rewrite ak_where_columns. simpl. f_equal.
  unfold ak_map, Tb. rewrite !map_map. apply map_ext. intros [[a b] c].
  unfold triple_list, spec_a1_P, closer_to_rho. cbn [map fst snd].
  rewrite (fabs_fsub_sym (mass (p4_add a b))),
          (fabs_fsub_sym (mass (p4_add a c))).
  by destruct (fltb _ _).
Qed.

(** C7: for method DP and mode a1, on a batch in which every event has
    exactly three charged pions, [_prepareVecs] returns as R the first pion of
    every event and as P the second pion when the mass of the first and
    second pion is strictly closer to 0.77526 than the mass of the first and
    third, and the third pion otherwise. *)
Theorem C7_a1_DP_selection (hcand hcand_pi hcand_pi0 : ak Particle) :
  Forall (fun pions => length pions = 3%nat) hcand_pi ->
  _prepareVecs hcand hcand_pi hcand_pi0 "DP" "a1"
  = Ok (Some (map spec_a1_P hcand_pi), Some (map spec_a1_R hcand_pi),
        ak_map charge hcand).
Proof.
  intros H3. destruct (triples_of_lengths _ H3) as [T ->].
  unfold _prepareVecs. simpl. rewrite _get_pi_a1_DP_triples. simpl.
  replace (ak_slice 0 1 (map triple_list T))
    with (map spec_a1_R (map triple_list T)); [reflexivity|].
  unfold ak_slice. rewrite !map_map. reflexivity.
Qed.

Lemma C7_a1_DP_selection_witness :
  _prepareVecs [[tau_minus]] [[pion_os; pion_ss1; pion_ss2]] [[]] "DP" "a1"
  = Ok (Some (map spec_a1_P [[pion_os; pion_ss1; pion_ss2]]),
        Some (map spec_a1_R [[pion_os; pion_ss1; pion_ss2]]),
        ak_map charge [[tau_minus]]).
Proof.
  apply C7_a1_DP_selection. apply Forall_singleton. reflexivity.
Defined.

(** ** C3: pairs of method and mode outside the table *)

Lemma _prepareVecs_DP_wrong_mode (hcand hcand_pi hcand_pi0 : ak Particle)
    (mode : string) :
  mode <> "rho" -> mode <> "a1" ->
  _prepareVecs hcand hcand_pi hcand_pi0 "DP" mode
  = Raise (RuntimeError (String.append "Wrong mode : " mode)).
Proof.
  intros Hrho Ha1. unfold _prepareVecs. simpl.
  apply String.eqb_neq in Hrho, Ha1. by rewrite Hrho, Ha1.
Qed.

Lemma _prepareVecs_wrong_method (hcand hcand_pi hcand_pi0 : ak Particle)
    (method mode : string) :
  method <> "DP" -> method <> "PV" -> method <> "IP" ->
  _prepareVecs hcand hcand_pi hcand_pi0 method mode
  = Raise (RuntimeError (String.append "Wrong " method)).
Proof.
  intros H1 H2 H3. unfold _prepareVecs.
  apply String.eqb_neq in H1, H2, H3. by rewrite H1, H2, H3.
Qed.

Lemma _prepareVecs_PV (hcand hcand_pi hcand_pi0 : ak Particle) (mode : string) :
  _prepareVecs hcand hcand_pi hcand_pi0 "PV" mode
  = Ok (Some hcand, Some hcand_pi, ak_map charge hcand).
Proof. reflexivity. Qed.

Lemma _prepareVecs_IP_other_mode (hcand hcand_pi hcand_pi0 : ak Particle)
    (mode : string) :
  mode <> "e" -> mode <> "mu" -> mode <> "pi" ->
  _prepareVecs hcand hcand_pi hcand_pi0 "IP" mode
  = Ok (None, None, ak_map charge hcand).
Proof.
  intros H1 H2 H3. unfold _prepareVecs. simpl.
  apply String.eqb_neq in H1, H2, H3. by rewrite H1, H2, H3.
Qed.

(** C3, evaluated where the code departs from it: for method IP and the modes
    rho and a1, which are outside the table, [_prepareVecs] raises nothing
    and returns [None] for both P and R. *)
Theorem C3_IP_mode_falls_through (hcand hcand_pi hcand_pi0 : ak Particle) :
  _prepareVecs hcand hcand_pi hcand_pi0 "IP" "rho"
    = Ok (None, None, ak_map charge hcand) /\
  _prepareVecs hcand hcand_pi hcand_pi0 "IP" "a1"
    = Ok (None, None, ak_map charge hcand).
Proof. split; reflexivity. Qed.

(** ** The pipeline *)

Section PipelineProperties.
Variable boost : LorentzVector -> ThreeVector -> LorentzVector.
Variable boostvec : LorentzVector -> ThreeVector.
Variable vunit : ThreeVector -> ThreeVector.
Variable PolarimetricA1_PVC :
  ak LorentzVector -> ak LorentzVector -> ak LorentzVector ->
  ak LorentzVector -> ak R -> result (ak LorentzVector).

(** In the PV method a mode outside pi, rho and a1 is refused by [_pv],
    once the tau has been boosted. *)
Lemma _pv_wrong_mode (boostv : ak ThreeVector) (tau pi : option (ak Particle))
    (pi0 : ak Particle) (mode : string) :
  mode <> "pi" -> mode <> "rho" -> mode <> "a1" ->
  exists e, _pv boost vunit PolarimetricA1_PVC boostv tau pi pi0 mode
            = Raise e /\
    (forall P, boost_to_ZMF boost tau boostv = Ok P ->
               e = RuntimeError (String.append "Wrong mode: " mode)).
Proof.
  intros H1 H2 H3. unfold _pv.
  apply String.eqb_neq in H1, H2, H3. rewrite H1, H2, H3.
  destruct (boost_to_ZMF boost tau boostv) as [P|e]; simpl.
  - eexists. split; [reflexivity|]. reflexivity.
  - exists e. split; [reflexivity|]. discriminate.
Qed.

Lemma _reStructureVecs_wrong_method (boostv : ak ThreeVector)
    (V1 V2 : option (ak Particle)) (V3 : ak Particle) (method mode : string) :
  method <> "DP" -> method <> "PV" -> method <> "IP" ->
  _reStructureVecs boost vunit PolarimetricA1_PVC boostv V1 V2 V3 method mode
  = Raise (RuntimeError (String.append "Wrong method: " method)).
Proof.
  intros H1 H2 H3. unfold _reStructureVecs.
  apply String.eqb_neq in H1, H2, H3. by rewrite H1, H2, H3.
Qed.

Lemma _getBoost_frame (P1 R1 P2 R2 : option (ak Particle))
    (m1 m2 d1 d2 : string) :
  _getBoost boostvec P1 R1 P2 R2 m1 m2 d1 d2
  = let* frame := if both_PV_pi m1 m2 d1 d2 then add_arrays R1 R2
                  else add_arrays P1 P2 in
    Ok (ak_map boostvec frame).
Proof.
  unfold _getBoost, both_PV_pi.
  destruct (String.eqb_spec m1 "PV"), (String.eqb_spec m2 "PV"),
    (String.eqb_spec d1 "pi"), (String.eqb_spec d2 "pi"); simpl;
    case_bool_decide; try reflexivity; exfalso; tauto.
Qed.

(** C4: [_getBoost] returns the boost vectors of R1 + R2 exactly when both
    methods are PV and both modes are pi, and of P1 + P2 otherwise; on
    aligned arrays it returns one boost vector for every entry of the batch;
    and whenever [PrepareVecsForPhiCP] returns, one array of boost vectors,
    with one boost vector for every entry of the summed frame, has been
    computed and has been passed to the restructuring of both legs. *)
Theorem C4_frame_selection :
  (forall (P1 R1 P2 R2 : option (ak Particle)) (m1 m2 d1 d2 : string),
     _getBoost boostvec P1 R1 P2 R2 m1 m2 d1 d2
     = let* frame := if both_PV_pi m1 m2 d1 d2 then add_arrays R1 R2
                     else add_arrays P1 P2 in
       Ok (ak_map boostvec frame)) /\
  (forall (T : Type) (p1 r1 p2 r2 : T -> Particle) (L : ak T)
          (m1 m2 d1 d2 : string),
     _getBoost boostvec (Some (ak_map p1 L)) (Some (ak_map r1 L))
               (Some (ak_map p2 L)) (Some (ak_map r2 L)) m1 m2 d1 d2
     = Ok (ak_map (fun t => boostvec (if both_PV_pi m1 m2 d1 d2
                                      then p4_add (r1 t) (r2 t)
                                      else p4_add (p1 t) (p2 t))) L)) /\
  (forall (d : gmap string (ak Particle)) (m1 m2 d1 d2 : string)
          (out : gmap string value),
     PrepareVecsForPhiCP boost boostvec vunit PolarimetricA1_PVC
                         d m1 m2 d1 d2 = Ok out ->
     one_frame_for_both_legs boost boostvec vunit PolarimetricA1_PVC
                             d m1 m2 d1 d2 out).
Proof.
  split; [apply _getBoost_frame|]. split.
  { intros T p1 r1 p2 r2 L m1 m2 d1 d2. rewrite _getBoost_frame.
    destruct (both_PV_pi m1 m2 d1 d2); unfold add_arrays;
      rewrite ak_map2_columns; simpl; by rewrite ak_map_columns. }
  intros d m1 m2 d1 d2 out H. unfold PrepareVecsForPhiCP, getp4 in H.
  destruct (d !! "p4h1") as [p4h1|] eqn:Hk_p4h1; [|discriminate].
  destruct (d !! "p4h1pi") as [p4h1pi|] eqn:Hk_p4h1pi; [|discriminate].
  destruct (d !! "p4h1pi0") as [p4h1pi0|] eqn:Hk_p4h1pi0; [|discriminate].
  destruct (d !! "p4h2") as [p4h2|] eqn:Hk_p4h2; [|discriminate].
  destruct (d !! "p4h2pi") as [p4h2pi|] eqn:Hk_p4h2pi; [|discriminate].
  destruct (d !! "p4h2pi0") as [p4h2pi0|] eqn:Hk_p4h2pi0; [|discriminate].
  simpl in H.
  apply bind_Ok in H as ([[_P1 _R1] _C1] & Hleg1 & H).
  apply bind_Ok in H as ([[_P2 _R2] _C2] & Hleg2 & H).
  apply bind_Ok in H as (boostv & Hboost & H).
  apply bind_Ok in H as ([[[P1 R1] H1] Y1] & Hre1 & H).
  apply bind_Ok in H as ([[[P2 R2] H2] Y2] & Hre2 & H).
  injection H as <-.
  pose proof Hboost as Hframe. rewrite _getBoost_frame in Hframe.
  apply bind_Ok in Hframe as (frame & Hframe & [= <-]).
  unfold one_frame_for_both_legs.
  exists p4h1, p4h1pi, p4h1pi0, p4h2, p4h2pi, p4h2pi0,
    _P1, _R1, _C1, _P2, _R2, _C2, frame, (ak_map boostvec frame),
    P1, R1, H1, Y1, P2, R2, H2, Y2.
  repeat split; try assumption; try reflexivity.
  by apply Forall2_ak_map.
Qed.
End PipelineProperties.

Lemma C4_frame_selection_witness :
  exists out,
    PrepareVecsForPhiCP sample_boost sample_boostvec sample_vunit sample_PVC
                        sample_p4hcandinfodict "PV" "PV" "pi" "pi" = Ok out /\
    one_frame_for_both_legs sample_boost sample_boostvec sample_vunit
                            sample_PVC sample_p4hcandinfodict
                            "PV" "PV" "pi" "pi" out.
Proof.
  eexists. split; [reflexivity|].
  apply (proj2 (proj2 (C4_frame_selection sample_boost sample_boostvec
                                          sample_vunit sample_PVC))).
  reflexivity.
Defined.

(** * Further properties of the module *)

(** ** Shapes of the element-wise operations *)

Lemma zip_strict_length {A B C : Type} (f : A -> B -> result C)
    (a : list A) (b : list B) (c : list C) :
  zip_strict f a b = Ok c -> length a = length b /\ length c = length a.
Proof.
  revert b c. induction a as [|x a IH]; intros [|y b] c H; simpl in H;
    try discriminate.
  - by injection H as <-.
  - apply bind_Ok in H as (z & _ & H). apply bind_Ok in H as (zs & Hzs & H).
    injection H as <-. destruct (IH _ _ Hzs) as [Hl1 Hl2]. simpl.
    split; congruence.
Qed.

Lemma length_shape {A : Type} (a : ak A) : length (shape a) = length a.
Proof. apply length_map. Qed.

Lemma shape_eq_length {A B : Type} (a : ak A) (b : ak B) :
  shape a = shape b -> length a = length b.
Proof. intros H. rewrite <- (length_shape a), H. apply length_shape. Qed.

Lemma ak_zip_shape {A B C : Type} (f : A -> B -> C) (a : ak A) (b : ak B)
    (c : ak C) :
  ak_zip f a b = Ok c -> shape a = shape b /\ shape c = shape a.
Proof.
  unfold ak_zip, shape. revert b c.
  induction a as [|la a IH]; intros [|lb b] c H; simpl in H; try discriminate.
  - by injection H as <-.
  - apply bind_Ok in H as (lc & Hlc & H). apply bind_Ok in H as (cs & Hcs & H).
    injection H as <-.
    destruct (zip_strict_length _ _ _ _ Hlc) as [Hl1 Hl2].
    destruct (IH _ _ Hcs) as [Hs1 Hs2]. simpl. split; congruence.
Qed.

(** Without broadcasting, that is on two arrays of the same number of
    events, an element-wise operation that returns has met two arrays of one
    shape. *)
Lemma ak_map2_shape {A B C : Type} (f : A -> B -> C) (a : ak A) (b : ak B)
    (c : ak C) :
  ak_map2 f a b = Ok c -> length a = length b ->
  shape a = shape b /\ shape c = shape a.
Proof.
  intros H Hl. rewrite ak_map2_same_length in H by done.
  by apply ak_zip_shape in H.
Qed.

Lemma ak_where_shape {A : Type} (c : ak bool) (a b r : ak A) :
  ak_where c a b = Ok r -> length a = length c -> length b = length c ->
  shape a = shape c /\ shape b = shape c /\ shape r = shape c.
Proof.
  unfold ak_where. intros H Ha Hb. apply bind_Ok in H as (ab & Hab & H).
  destruct (ak_map2_shape _ _ _ _ Hab) as [Hs1 Hs2]; [congruence|].
  destruct (ak_map2_shape _ _ _ _ H) as [Hc Hr].
  { apply shape_eq_length in Hs2. congruence. }
  repeat split; congruence.
Qed.

Lemma zip_strict_ValueError {A B C : Type} (f : A -> B -> result C)
    (a : list A) (b : list B) (e : exn) :
  (forall x y e', f x y = Raise e' -> e' = ValueError) ->
  zip_strict f a b = Raise e -> e = ValueError.
Proof.
  intros Hf. revert b. induction a as [|x a IH]; intros [|y b] H; simpl in H;
    try discriminate; try (by injection H as <-).
  destruct (f x y) as [c|e'] eqn:Hfxy; simpl in H.
  - destruct (zip_strict f a b) as [cs|e''] eqn:Hz; simpl in H;
      [discriminate|]. injection H as <-. by eapply IH.
  - injection H as <-. by eapply Hf.
Qed.

Lemma ak_map2_ValueError {A B C : Type} (f : A -> B -> C) (a : ak A)
    (b : ak B) (e : exn) :
  ak_map2 f a b = Raise e -> e = ValueError.
Proof.
  unfold ak_map2, ak_zip. apply zip_strict_ValueError. intros la lb e'.
  apply zip_strict_ValueError. discriminate.
Qed.

Lemma ak_where_ValueError {A : Type} (c : ak bool) (a b : ak A) (e : exn) :
  ak_where c a b = Raise e -> e = ValueError.
Proof.
  unfold ak_where. destruct (ak_map2 pair a b) as [ab|e'] eqn:Hab; simpl.
  - apply ak_map2_ValueError.
  - intros [= <-]. by eapply ak_map2_ValueError.
Qed.

(** ** The runs of the angle computation that return *)

Lemma as_vec_Ok (v : value) (a : ak ThreeVector) : as_vec v = Ok a -> v = VVec a.
Proof. destruct v; simpl; intros [= <-]; reflexivity. Qed.

Lemma as_num_Ok (v : value) (a : ak R) : as_num v = Ok a -> v = VNum a.
Proof. destruct v; simpl; intros [= <-]; reflexivity. Qed.

Lemma as_branch_Ok (v : value) (a : ak ThreeVector) :
  as_branch v = Ok a -> v = VVec a.
Proof. destruct v; simpl; intros [= <-]; reflexivity. Qed.

Lemma combine_Y_inv (Y1 Y2 : value) (Y : option value) (n : nat) :
  combine_Y Y1 Y2 = Ok Y ->
  has_events n Y1 -> has_events n Y2 ->
  (forall Yv, Y = Some Yv -> exists y, Yv = VNum y) ->
  exists oy1 oy2 : option (ak R),
    Y1 = value_of_Y oy1 /\ Y2 = value_of_Y oy2 /\
    forall y, Y = Some (VNum y) ->
      length y = n /\
      (forall yi, oy1 = Some yi -> shape yi = shape y) /\
      (forall yi, oy2 = Some yi -> shape yi = shape y).
Proof.
  unfold combine_Y. intros H Hn1 Hn2 HY.
  destruct (is_not_None Y1) eqn:H1, (is_not_None Y2) eqn:H2.
  - apply bind_Ok in H as (y1 & Hy1 & H). apply bind_Ok in H as (y2 & Hy2 & H).
    apply bind_Ok in H as (y & Hy & H). injection H as <-.
    apply as_num_Ok in Hy1 as ->. apply as_num_Ok in Hy2 as ->.
    simpl in Hn1, Hn2.
    destruct (ak_map2_shape _ _ _ _ Hy) as [Hs1 Hs2]; [congruence|].
    exists (Some y1), (Some y2). repeat split; try reflexivity.
    + injection H as <-. apply shape_eq_length in Hs2. congruence.
    + intros ? [= <-]. injection H as <-. congruence.
    + intros ? [= <-]. injection H as <-. congruence.
  - injection H as <-. destruct (HY _ eq_refl) as (y & ->).
    destruct Y2; try discriminate.
    exists (Some y), None. repeat split; try reflexivity.
    + by injection H as <-.
    + intros ? [= <-]. by injection H as <-.
    + discriminate.
  - injection H as <-. destruct (HY _ eq_refl) as (y & ->).
    destruct Y1; try discriminate.
    exists None, (Some y). repeat split; try reflexivity.
    + by injection H as <-.
    + discriminate.
    + intros ? [= <-]. by injection H as <-.
  - destruct Y1, Y2; try discriminate. injection H as <-.
    exists None, None. repeat split; try reflexivity; discriminate.
Qed.

Lemma _getSign_inv (P1 H1 P2 H2 C1 C2 : value) (sign : ak R) (n : nat) :
  _getSign P1 H1 P2 H2 C1 C2 = Ok sign ->
  has_events n P1 -> has_events n H1 -> has_events n P2 ->
  has_events n H2 -> has_events n C1 ->
  exists p1 h1 p2 h2 c1,
    P1 = VVec p1 /\ H1 = VVec h1 /\ P2 = VVec p2 /\ H2 = VVec h2 /\
    C1 = VNum c1 /\
    shape h1 = shape p1 /\ shape p2 = shape p1 /\ shape h2 = shape p1 /\
    shape c1 = shape p1 /\ shape sign = shape p1.
Proof.
  unfold _getSign. intros H HnP1 HnH1 HnP2 HnH2 HnC1.
  apply bind_Ok in H as (c1 & Hc1 & H). apply as_num_Ok in Hc1 as ->.
  apply bind_Ok in H as (p1 & Hp1 & H). apply as_branch_Ok in Hp1 as ->.
  apply bind_Ok in H as (p2 & Hp2 & H). apply as_branch_Ok in Hp2 as ->.
  apply bind_Ok in H as (Pm & HPm & H).
  apply bind_Ok in H as (h1 & Hh1 & H). apply as_branch_Ok in Hh1 as ->.
  apply bind_Ok in H as (h2 & Hh2 & H). apply as_branch_Ok in Hh2 as ->.
  apply bind_Ok in H as (Hm & HHm & H).
  apply bind_Ok in H as (Hp & HHp & H).
  apply bind_Ok in H as (HpxHm & Hx & H).
  apply bind_Ok in H as (sg & Hsg & H). injection H as <-.
  simpl in HnP1, HnH1, HnP2, HnH2, HnC1.
  assert (Hlc : length (ak_map (fun c : R => Rltb c 0) c1) = n)
    by (unfold ak_map; by rewrite length_map).
  apply ak_where_shape in HPm as (HP1 & HP2 & HPm); [|congruence..].
  apply ak_where_shape in HHm as (HH1 & HH2 & HHm); [|congruence..].
  apply ak_where_shape in HHp as (_ & _ & HHp); [|congruence..].
  apply ak_map2_shape in Hx as [_ Hx];
    [|apply shape_eq_length; congruence].
  apply ak_map2_shape in Hsg as [Hsg1 Hsg2];
    [|apply shape_eq_length; congruence].
  rewrite shape_ak_map in *.
  exists p1, h1, p2, h2, c1. repeat split; congruence.
Qed.

Lemma acop_before_wrap_inv (P1 R1 H1 C1 P2 R2 H2 C2 Y1 Y2 : value)
    (pre : ak float) (n : nat) :
  acop_before_wrap P1 R1 H1 C1 P2 R2 H2 C2 Y1 Y2 = Ok pre ->
  has_events n P1 -> has_events n R1 -> has_events n H1 ->
  has_events n C1 -> has_events n P2 -> has_events n R2 ->
  has_events n H2 -> has_events n Y1 -> has_events n Y2 ->
  exists (E : ak Event) (y1 y2 : bool),
    P1 = VVec (ak_map eP1 E) /\ R1 = VVec (ak_map eR1 E) /\
    H1 = VVec (ak_map eH1 E) /\ C1 = VNum (ak_map eC1 E) /\
    P2 = VVec (ak_map eP2 E) /\ R2 = VVec (ak_map eR2 E) /\
    H2 = VVec (ak_map eH2 E) /\
    Y1 = Y_column y1 eY1 E /\ Y2 = Y_column y2 eY2 E /\
    pre = ak_map (prewrap_event y1 y2) E.
Proof.
  intros H0 HnP1 HnR1 HnH1 HnC1 HnP2 HnR2 HnH2 HnY1 HnY2.
  pose proof H0 as H. unfold acop_before_wrap in H.
  apply bind_Ok in H as (Y & HY & H).
  apply bind_Ok in H as (r1 & Hr1 & H). apply as_vec_Ok in Hr1 as ->.
  apply bind_Ok in H as (r2 & Hr2 & H). apply as_vec_Ok in Hr2 as ->.
  apply bind_Ok in H as (r1r2 & Hdot & H). cbv zeta in H.
  apply bind_Ok in H as (sign & Hsign & H).
  apply bind_Ok in H as (acop1 & Hw1 & H).
  apply bind_Ok in H as (acop2 & Hw2 & H). injection H as <-.
  destruct (_getSign_inv _ _ _ _ _ _ _ n Hsign)
    as (p1 & h1 & p2 & h2 & c1 & -> & -> & -> & -> & -> &
        Hh1 & Hp2 & Hh2 & Hc1 & Hsg); try assumption.
  simpl in HnP1, HnR1, HnR2.
  apply ak_map2_shape in Hdot as [Hr12 Hr]; [|congruence].
  assert (Hlsign : length sign = n)
    by (apply shape_eq_length in Hsg; congruence).
  assert (Hlr : length r1r2 = n)
    by (apply shape_eq_length in Hr; congruence).
  apply ak_where_shape in Hw1 as (_ & Ha & Ha1);
    [|unfold ak_map; rewrite !length_map; congruence..].
  rewrite !shape_ak_map in *.
  assert (Hr1 : shape r1 = shape p1) by congruence.
  assert (Hr2 : shape r2 = shape p1) by congruence.
  assert (HYt : forall Yv, Y = Some Yv -> exists y, Yv = VNum y).
  { intros Yv ->. apply bind_Ok in Hw2 as (y & Hy & Hw2).
    apply as_num_Ok in Hy as ->. by exists y. }
  destruct (combine_Y_inv _ _ _ n HY HnY1 HnY2 HYt)
    as (oy1 & oy2 & -> & -> & HYs).
  assert (HYv : forall y, Y = Some (VNum y) -> shape y = shape p1).
  { intros y ->. destruct (HYs y eq_refl) as (Hly & _ & _).
    simpl in Hw2.
    apply ak_where_shape in Hw2 as (_ & Hacop & _);
      [| unfold ak_map; rewrite !length_map |
         unfold ak_map; rewrite length_map ];
      [| apply shape_eq_length in Ha1; congruence..].
    rewrite shape_ak_map in Hacop. congruence. }
  assert (Hy1 : forall y, oy1 = Some y -> shape y = shape p1).
  { intros y ->. destruct Y as [Yv|].
    - destruct (HYt _ eq_refl) as (y' & ->).
      destruct (HYs y' eq_refl) as (_ & Hs & _).
      rewrite (Hs y eq_refl). by apply HYv.
    - simpl in HY. unfold combine_Y in HY. simpl in HY.
      destruct oy2; simpl in HY; try discriminate.
      apply bind_Ok in HY as (? & _ & HY). discriminate. }
  assert (Hy2 : forall y, oy2 = Some y -> shape y = shape p1).
  { intros y ->. destruct Y as [Yv|].
    - destruct (HYt _ eq_refl) as (y' & ->).
      destruct (HYs y' eq_refl) as (_ & _ & Hs).
      rewrite (Hs y eq_refl). by apply HYv.
    - simpl in HY. unfold combine_Y in HY.
      destruct oy1; simpl in HY; try discriminate.
      apply bind_Ok in HY as (? & _ & HY). discriminate. }
  destruct (events_of_columns p1 r1 h1 p2 r2 h2 c1
              (ak_map (fun _ => 0) p1) (Y_or_zeros oy1 p1) (Y_or_zeros oy2 p1))
    as (E & -> & -> & -> & -> & -> & -> & -> & _ & HE1 & HE2);
    try assumption; try apply shape_ak_map.
  { destruct oy1 as [y|]; simpl; [by apply Hy1|apply shape_ak_map]. }
  { destruct oy2 as [y|]; simpl; [by apply Hy2|apply shape_ak_map]. }
  exists E, (bool_decide (is_Some oy1)), (bool_decide (is_Some oy2)).
  assert (HY1 : value_of_Y oy1 = Y_column (bool_decide (is_Some oy1)) eY1 E).
  { destruct oy1 as [y|]; simpl in *; [by subst|reflexivity]. }
  assert (HY2 : value_of_Y oy2 = Y_column (bool_decide (is_Some oy2)) eY2 E).
  { destruct oy2 as [y|]; simpl in *; [by subst|reflexivity]. }
  repeat split; try reflexivity; try assumption.
  rewrite HY1, HY2, acop_before_wrap_columns in H0. by injection H0 as <-.
Qed.

Lemma vecsdict_of_insert_C2 (P1 R1 H1 C1 P2 R2 H2 C2 C2' Y1 Y2 : value) :
  vecsdict_of P1 R1 H1 C1 P2 R2 H2 C2 Y1 Y2
  = <["C2" := C2]> (vecsdict_of P1 R1 H1 C1 P2 R2 H2 C2' Y1 Y2).
Proof.
  unfold vecsdict_of. apply map_eq. intros k.
  destruct (decide (k = "C2")) as [->|Hk]; [by simplify_map_eq|].
  rewrite (lookup_insert_ne _ "C2" k) by done.
  rewrite !lookup_insert.
  repeat (case_decide; [first [reflexivity|congruence]|]).
  reflexivity.
Qed.

Lemma same_events_vecsdict_of (n : nat)
    (P1 R1 H1 C1 P2 R2 H2 C2 Y1 Y2 : value) :
  same_events n (vecsdict_of P1 R1 H1 C1 P2 R2 H2 C2 Y1 Y2) <->
  has_events n P1 /\ has_events n R1 /\ has_events n H1 /\
  has_events n C1 /\ has_events n P2 /\ has_events n R2 /\
  has_events n H2 /\ has_events n Y1 /\ has_events n Y2.
Proof.
  unfold same_events, vecsdict_of. split.
  - intros H.
    repeat split;
      match goal with
      | |- has_events _ ?v =>
          first [ apply (H "P1" v); [done | by simplify_map_eq]
                | apply (H "R1" v); [done | by simplify_map_eq]
                | apply (H "H1" v); [done | by simplify_map_eq]
                | apply (H "C1" v); [done | by simplify_map_eq]
                | apply (H "P2" v); [done | by simplify_map_eq]
                | apply (H "R2" v); [done | by simplify_map_eq]
                | apply (H "H2" v); [done | by simplify_map_eq]
                | apply (H "Y1" v); [done | by simplify_map_eq]
                | apply (H "Y2" v); [done | by simplify_map_eq] ]
      end.
  - intros (HP1 & HR1 & HH1 & HC1 & HP2 & HR2 & HH2 & HY1 & HY2) k v Hk Hl.
    rewrite !lookup_insert in Hl.
    repeat (case_decide; [first [by injection Hl as <- | congruence]|]).
    by rewrite lookup_empty in Hl.
Qed.

Lemma same_events_insert_C2 (n : nat) (d : gmap string value) (C2 : value) :
  same_events n d -> same_events n (<["C2" := C2]> d).
Proof.
  intros H k v Hk Hl. rewrite lookup_insert_ne in Hl by done. by eapply H.
Qed.

Lemma same_events_events_dict (E : ak Event) (y1 y2 : bool) :
  same_events (length E) (events_dict E y1 y2).
Proof.
  unfold events_dict. apply same_events_vecsdict_of.
  unfold Y_column. destruct y1, y2; simpl; unfold ak_map;
    rewrite ?length_map; tauto.
Qed.

(** X1: on a dict whose components other than C2 are [None] or arrays of the
    same number of events (so that no array of one event is broadcast
    against longer ones), [ComputeAcopAngle] returns exactly when the ten
    components are the aligned columns of one table of events, of the kinds
    the docstring names (the value under C2 being arbitrary), and then every
    angle returned is [acop_event] of the matching entry of the table. *)
Theorem X1_returning_runs (d : gmap string value) (out : ak float) (n : nat) :
  same_events n d ->
  (ComputeAcopAngle d = Ok out <->
   exists (E : ak Event) (y1 y2 : bool) (C2 : value),
     d = <["C2" := C2]> (events_dict E y1 y2) /\
     out = ak_map (acop_event y1 y2) E).
Proof.
  intros Hn. split.
  - intros H.
    destruct (ComputeAcopAngle_Ok_inv d out H)
      as (P1 & R1 & H1 & C1 & P2 & R2 & H2 & C2 & Y1 & Y2 & pre &
          -> & Hpre & ->).
    apply same_events_vecsdict_of in Hn
      as (HP1 & HR1 & HH1 & HC1 & HP2 & HR2 & HH2 & HY1 & HY2).
    destruct (acop_before_wrap_inv _ _ _ _ _ _ _ _ _ _ _ n Hpre)
      as (E & y1 & y2 & -> & -> & -> & -> & -> & -> & -> & -> & -> & ->);
      try assumption.
    exists E, y1, y2, C2. split.
    + apply vecsdict_of_insert_C2.
    + apply (ak_map_columns wrap (prewrap_event y1 y2)).
  - intros (E & y1 & y2 & C2 & -> & ->).
    rewrite (ComputeAcopAngle_C2 _ C2 (VNum (ak_map eC2 E))).
    unfold events_dict at 1. rewrite <- vecsdict_of_insert_C2.
    apply ComputeAcopAngle_events.
Qed.

Lemma X1_returning_runs_witness :
  ComputeAcopAngle (<["C2" := VNone]> (events_dict [[ev_opposite]] true true))
  = Ok (ak_map (acop_event true true) [[ev_opposite]]).
Proof.
  apply (proj2 (X1_returning_runs _ _ 1
                  (same_events_insert_C2 _ _ _
                     (same_events_events_dict [[ev_opposite]] true true)))).
  by exists [[ev_opposite]], true, true, VNone.
Defined.

(** X2: whenever [ComputeAcopAngle] returns, on any dict, every angle of the
    result is NaN or a number of the closed interval [0, 2 pi]: it returns
    no negative angle and no angle above 2 pi, also for R vectors that are
    not unit vectors. *)
Theorem X2_result_nan_or_in_range (d : gmap string value) (out : ak float) :
  ComputeAcopAngle d = Ok out -> Forall (Forall (nan_or_upto 2)) out.
Proof.
  intros H.
  destruct (ComputeAcopAngle_Ok_inv d out H)
    as (P1 & R1 & H1 & C1 & P2 & R2 & H2 & C2 & Y1 & Y2 & pre &
        _ & Hpre & ->).
  eapply Forall_ak_map; [|exact (acop_before_wrap_range _ _ _ _ _ _ _ _ _ _ _ Hpre)].
  apply wrap_upto.
Qed.

Lemma X2_result_nan_or_in_range_witness :
  Forall (Forall (nan_or_upto 2)) [[NaN]].
Proof.
  apply (X2_result_nan_or_in_range (events_dict [[ev_overshoot]] false false)).
  rewrite ComputeAcopAngle_events. simpl.
  rewrite acop_event_outside_domain; [reflexivity|].
  unfold dot; simpl; lra.
Defined.

(** ** Symmetries of the angle *)

Lemma ak_map_ext_Forall {A B : Type} (P : A -> Prop) (f g : A -> B) (a : ak A) :
  (forall x, P x -> f x = g x) ->
  Forall (Forall P) a -> ak_map f a = ak_map g a.
Proof.
  intros Hfg Ha. unfold ak_map.
  induction Ha as [|l a Hl _ IH]; simpl; [reflexivity|]. f_equal; [|exact IH].
  induction Hl as [|x l Hx _ IHl]; simpl; [reflexivity|]. f_equal; auto.
Qed.

Lemma Forall2_ak_maps {A B C : Type} (P : A -> Prop) (Q : B -> C -> Prop)
    (f : A -> B) (g : A -> C) (a : ak A) :
  (forall x, P x -> Q (f x) (g x)) ->
  Forall (Forall P) a -> Forall2 (Forall2 Q) (ak_map f a) (ak_map g a).
Proof.
  intros Hfg Ha. unfold ak_map.
  induction Ha as [|l a Hl _ IH]; simpl; constructor; [|exact IH].
  induction Hl as [|x l Hx _ IHl]; simpl; constructor; auto.
Qed.

Lemma dot_comm (a b : ThreeVector) : dot a b = dot b a.
Proof. unfold dot. lra. Qed.

Lemma acop_event_swap_legs (y1 y2 : bool) (e : Event) :
  eC1 e * eC2 e < 0 ->
  acop_event y2 y1 (swap_legs e) = acop_event y1 y2 e.
Proof.
  intros Hc. unfold acop_event, prewrap_event. f_equal.
  assert (HY : Y_event y2 y1 (swap_legs e) = Y_event y1 y2 e).
  { destruct y1, y2; simpl; try reflexivity. f_equal. lra. }
  assert (Hraw : raw_angle (swap_legs e) = raw_angle e).
  { unfold raw_angle. simpl. by rewrite dot_comm. }
  assert (Hs : sign_event (swap_legs e) = sign_event e).
  { unfold sign_event, Rltb. simpl. real_cases; try reflexivity; nra. }
  by rewrite HY, Hraw, Hs.
Qed.

(** X3: the angle does not depend on which leg is called the first: on a
    batch whose two charges have opposite signs in every entry, exchanging
    all components of leg 1 and leg 2 gives the same result. *)
Theorem X3_leg_order_irrelevant (E : ak Event) (y1 y2 : bool) :
  Forall (Forall (fun e => eC1 e * eC2 e < 0)) E ->
  ComputeAcopAngle (events_dict (ak_map swap_legs E) y2 y1)
  = ComputeAcopAngle (events_dict E y1 y2).
Proof.
  intros HE. rewrite !ComputeAcopAngle_events, ak_map_columns. f_equal.
  eapply ak_map_ext_Forall; [|exact HE].
  intros e He. by apply acop_event_swap_legs.
Qed.

Lemma X3_leg_order_irrelevant_witness :
  ComputeAcopAngle (events_dict (ak_map swap_legs [[ev_opposite]]) true true)
  = ComputeAcopAngle (events_dict [[ev_opposite]] true true).
Proof.
  apply X3_leg_order_irrelevant.
  apply Forall_singleton, Forall_singleton. simpl. lra.
Defined.

Lemma acos_below_PI (x : R) : -1 < x <= 1 -> 0 <= acos x < PI.
Proof.
  intros [Hlo [Hhi| ->]].
  - pose proof (acos_bound_lt x). lra.
  - rewrite acos_1. pose proof PI_RGT_0. lra.
Qed.

Lemma acop_event_mirror (y1 y2 : bool) (e : Event) :
  sign_event e <> 0 -> -1 < dot (eR1 e) (eR2 e) <= 1 ->
  fadd (acop_event y1 y2 e) (acop_event y1 y2 (mirror e)) = Num (2 * PI).
Proof.
  intros Hs Hd. pose proof PI_RGT_0 as Hpi.
  assert (Hsm : sign_event (mirror e) = - sign_event e).
  { unfold sign_event, Rltb, dot, cross. simpl. real_cases; simpl; lra. }
  assert (Hraw : raw_angle (mirror e) = raw_angle e).
  { unfold raw_angle. f_equal. unfold dot. simpl. lra. }
  assert (HY : Y_event y1 y2 (mirror e) = Y_event y1 y2 e)
    by (destruct y1, y2; reflexivity).
  unfold acop_event, prewrap_event. rewrite Hsm, Hraw, HY.
  unfold raw_angle, arccos.
  destruct (Rle_dec (-1) (dot (eR1 e) (eR2 e))) as [_|Hn]; [|lra].
  destruct (Rle_dec (dot (eR1 e) (eR2 e)) 1) as [_|Hn]; [|lra].
  pose proof (acos_below_PI _ Hd) as Hacos.
  set (raw := acos (dot (eR1 e) (eR2 e))) in *.
  set (sg := sign_event e) in *.
  unfold sign_step, shift_step, wrap, fgtb, fltb, Rltb.
  destruct (Y_event y1 y2 e) as [y|]; simpl;
    real_cases; simpl; real_cases; simpl; real_cases; simpl; real_cases;
    try lra; f_equal; lra.
Qed.

(** X4: reversing every vector of a batch (P, R and H of both legs) mirrors
    the angle: where the sign of the triple product is not zero and the dot
    product of the R vectors lies in (-1, 1], the angle of the entry and the
    angle of the reversed entry add up to 2 pi. *)
Theorem X4_mirror_image (E : ak Event) (y1 y2 : bool) :
  Forall (Forall (fun e => sign_event e <> 0 /\
                           -1 < dot (eR1 e) (eR2 e) <= 1)) E ->
  exists out out',
    ComputeAcopAngle (events_dict E y1 y2) = Ok out /\
    ComputeAcopAngle (events_dict (ak_map mirror E) y1 y2) = Ok out' /\
    Forall2 (Forall2 (fun a a' => fadd a a' = Num (2 * PI))) out out'.
Proof.
  intros HE.
  exists (ak_map (acop_event y1 y2) E),
         (ak_map (fun e => acop_event y1 y2 (mirror e)) E).
  split; [apply ComputeAcopAngle_events|]. split.
  - rewrite ComputeAcopAngle_events. f_equal. apply ak_map_columns.
  - eapply Forall2_ak_maps; [|exact HE].
    intros e [Hs Hd]. by apply acop_event_mirror.
Qed.

Lemma X4_mirror_image_witness :
  exists out out',
    ComputeAcopAngle (events_dict [[ev_right_angle]] true true) = Ok out /\
    ComputeAcopAngle (events_dict (ak_map mirror [[ev_right_angle]]) true true)
      = Ok out' /\
    Forall2 (Forall2 (fun a a' => fadd a a' = Num (2 * PI))) out out'.
Proof.
  apply (X4_mirror_image [[ev_right_angle]] true true).
  apply Forall_singleton, Forall_singleton.
  unfold sign_event, Rltb, dot, cross. simpl. split; [|lra].
  real_cases; try lra; intros Heq; simpl in Heq; lra.
Defined.

(** ** The selection of the pion of an a1 decay *)

Lemma _get_pi_a1_DP_ValueError (p4_pi : ak Particle) (e : exn) :
  _get_pi_a1_DP p4_pi = Raise e -> e = ValueError.
Proof.
  unfold _get_pi_a1_DP. intros H.
  destruct (ak_map2 p4_add (ak_slice 0 1 p4_pi) (ak_slice 1 2 p4_pi))
    as [s1|e1] eqn:H1; simpl in H;
    [|injection H as <-; by eapply ak_map2_ValueError].
  destruct (ak_map2 p4_add (ak_slice 0 1 p4_pi) (ak_slice 2 3 p4_pi))
    as [s2|e2] eqn:H2; simpl in H;
    [|injection H as <-; by eapply ak_map2_ValueError].
  match type of H with
  | bind ?r _ = _ => destruct r as [c|e3] eqn:H3; simpl in H;
      [|injection H as <-; by eapply ak_map2_ValueError]
  end.
  match type of H with
  | bind ?r _ = _ => destruct r as [w|e4] eqn:H4; simpl in H;
      [discriminate|injection H as <-; by eapply ak_where_ValueError]
  end.
Qed.

Lemma _get_pi_a1_DP_Ok_sliceable (p4_pi r : ak Particle) :
  _get_pi_a1_DP p4_pi = Ok r -> Forall a1_sliceable p4_pi.
Proof.
  unfold _get_pi_a1_DP. intros H.
  apply bind_Ok in H as (s1 & H1 & H). cbv zeta in H.
  apply bind_Ok in H as (s2 & H2 & _).
  apply ak_map2_shape in H1 as [H1 _];
    [|unfold ak_slice; by rewrite !length_map].
  apply ak_map2_shape in H2 as [H2 _];
    [|unfold ak_slice; by rewrite !length_map].
  clear s1 s2. unfold shape, ak_slice in *. rewrite !map_map in *.
  induction p4_pi as [|l p IH]; [constructor|].
  simpl in H1, H2. injection H1 as Hl1 H1. injection H2 as Hl2 H2.
  constructor; [|by apply IH].
  unfold a1_sliceable.
  destruct l as [|a [|b [|c l]]]; simpl in *; try discriminate;
    [by left|right; lia].
Qed.

Lemma _get_pi_a1_DP_sliceable (p4_pi : ak Particle) :
  Forall a1_sliceable p4_pi ->
  _get_pi_a1_DP p4_pi = Ok (map a1_choice p4_pi).
Proof.
  intros Hp.
  set (Tb := map first_three p4_pi).
  assert (Hrow : forall (f : Particle * Particle * Particle -> Particle)
                        (i j : nat),
            (forall a b c l, take (j - i) (drop i (a :: b :: c :: l))
                             = [f (a, b, c)]) ->
            take (j - i) (drop i []) = @nil Particle ->
            ak_slice i j p4_pi = ak_map f Tb).
  { intros f i j Hf Hnil. unfold ak_slice, ak_map, Tb. rewrite map_map.
    induction Hp as [|l p Hl _ IH]; [reflexivity|].
    cbn [map]. rewrite IH. f_equal.
    destruct Hl as [Hl|Hl].
    - destruct l; [|discriminate]. exact Hnil.
    - destruct l as [|a [|b [|c l]]]; simpl in Hl; try lia. apply Hf. }
  assert (H0 : ak_slice 0 1 p4_pi = ak_map (fun t => t.1.1) Tb)
    by (by apply Hrow).
  assert (H1 : ak_slice 1 2 p4_pi = ak_map (fun t => t.1.2) Tb)
    by (by apply Hrow).
  assert (H2 : ak_slice 2 3 p4_pi = ak_map (fun t => t.2) Tb)
    by (by apply Hrow).
  unfold _get_pi_a1_DP. rewrite H0, H1, H2.
  rewrite !ak_map2_columns. simpl.
  rewrite !ak_map_columns, ak_map2_columns. simpl.
  rewrite ak_where_columns. simpl. f_equal.
  unfold ak_map, Tb. rewrite map_map. clear Hrow H0 H1 H2.
  induction Hp as [|l p Hl _ IH]; [reflexivity|].
  cbn [map]. rewrite IH. f_equal.
  destruct Hl as [Hl|Hl].
  - by destruct l.
  - destruct l as [|a [|b [|c l]]]; simpl in Hl; try lia.
    unfold first_three, a1_choice, closer_to_rho. cbn [map fst snd].
    rewrite (fabs_fsub_sym (mass (p4_add a b))),
            (fabs_fsub_sym (mass (p4_add a c))).
    by destruct (fltb _ _).
Qed.

(** X5: [_get_pi_a1_DP] returns exactly on the batches in which every event
    has no pion or at least three.  It then keeps, for an event with pions,
    the second pion when the mass of the first and the second is strictly
    closer to 0.77526 than the mass of the first and the third, and the third
    pion otherwise, whatever pions follow the third.  On a batch with an
    event of one or two pions the whole call raises [ValueError]. *)
Theorem X5_a1_pion_selection (p4_pi : ak Particle) :
  (Forall a1_sliceable p4_pi ->
   _get_pi_a1_DP p4_pi = Ok (map a1_choice p4_pi)) /\
  (~ Forall a1_sliceable p4_pi -> _get_pi_a1_DP p4_pi = Raise ValueError).
Proof.
  split; [apply _get_pi_a1_DP_sliceable|].
  intros Hn. destruct (_get_pi_a1_DP p4_pi) as [r|e] eqn:H.
  - exfalso. apply Hn. by eapply _get_pi_a1_DP_Ok_sliceable.
  - f_equal. by eapply _get_pi_a1_DP_ValueError.
Qed.

Lemma X5_a1_pion_selection_witness :
  _get_pi_a1_DP [[pion_os; pion_ss1]] = Raise ValueError.
Proof.
  apply (proj2 (X5_a1_pion_selection [[pion_os; pion_ss1]])).
  intros H. inversion H as [|l p Hs Hp]. destruct Hs as [Hs|Hs]; simpl in Hs; lia.
Defined.

(** ** The selection of the vectors of a leg *)

(** X6: the failures of [_prepareVecs].  It raises [RuntimeError] with the
    message "Wrong <method>" for a method other than DP, PV and IP, and with
    the message "Wrong mode : <mode>" for the method DP with a mode other
    than rho and a1; for DP and a1 it raises [ValueError] when an event has
    one or two pions; and it raises in no other case. *)
Theorem X6_prepareVecs_failures (hcand hcand_pi hcand_pi0 : ak Particle)
    (m d : string) (e : exn) :
  _prepareVecs hcand hcand_pi hcand_pi0 m d = Raise e <->
  (m <> "DP" /\ m <> "PV" /\ m <> "IP" /\
   e = RuntimeError (String.append "Wrong " m)) \/
  (m = "DP" /\ d <> "rho" /\ d <> "a1" /\
   e = RuntimeError (String.append "Wrong mode : " d)) \/
  (m = "DP" /\ d = "a1" /\ ~ Forall a1_sliceable hcand_pi /\ e = ValueError).
Proof.
  unfold _prepareVecs.
  destruct (String.eqb_spec m "DP") as [->|HDP].
  - destruct (String.eqb_spec d "rho") as [->|Hrho]; simpl.
    + split; [discriminate|]. intros [(? & _)|[(_ & ? & _)|(_ & ? & _)]]; done.
    + destruct (String.eqb_spec d "a1") as [->|Ha1]; simpl.
      * destruct (_get_pi_a1_DP hcand_pi) as [r|e'] eqn:Hsel; simpl.
        -- split; [discriminate|].
           intros [(? & _)|[(_ & _ & ? & _)|(_ & _ & Hn & _)]]; try done.
           exfalso. apply Hn. by eapply _get_pi_a1_DP_Ok_sliceable.
        -- pose proof (_get_pi_a1_DP_ValueError _ _ Hsel) as ->.
           split.
           ++ intros [= <-]. right. right. repeat split; try reflexivity.
              intros Hall. rewrite (_get_pi_a1_DP_sliceable _ Hall) in Hsel.
              discriminate.
           ++ intros [(? & _)|[(_ & _ & ? & _)|(_ & _ & _ & ->)]]; done.
      * split.
        -- intros [= <-]. right. left. done.
        -- intros [(? & _)|[(_ & _ & _ & ->)|(_ & ? & _)]]; done.
  - destruct (String.eqb_spec m "PV") as [->|HPV]; simpl.
    + split; [discriminate|]. intros [(_ & ? & _)|[(? & _)|(? & _)]]; done.
    + destruct (String.eqb_spec m "IP") as [->|HIP]; simpl.
      * split.
        -- destruct (String.eqb d "e" || String.eqb d "mu");
             [|destruct (String.eqb d "pi")]; discriminate.
        -- intros [(_ & _ & ? & _)|[(? & _)|(? & _)]]; done.
      * split.
        -- intros [= <-]. left. done.
        -- intros [(_ & _ & _ & ->)|[(? & _)|(? & _)]]; done.
Qed.

Lemma X6_prepareVecs_failures_witness :
  _prepareVecs [[tau_minus]] [[pion_ss1]] [[]] "FastMTT" "pi"
  = Raise (RuntimeError "Wrong FastMTT").
Proof.
  apply (proj2 (X6_prepareVecs_failures _ _ _ _ _ _)). left. done.
Defined.

(** X7: whenever [_prepareVecs] returns, the charge it returns is the charge
    of the candidate, unchanged; P and R are both arrays or both [None]; and
    they are [None] exactly for the method IP with a mode other than e, mu
    and pi. *)
Theorem X7_prepareVecs_result (hcand hcand_pi hcand_pi0 : ak Particle)
    (m d : string) (_P _R : option (ak Particle)) (hcand_charge : ak R) :
  _prepareVecs hcand hcand_pi hcand_pi0 m d = Ok (_P, _R, hcand_charge) ->
  hcand_charge = ak_map charge hcand /\
  (_P = None <-> _R = None) /\
  (_P = None <-> m = "IP" /\ d <> "e" /\ d <> "mu" /\ d <> "pi").
Proof.
  unfold _prepareVecs. intros H.
  apply bind_Ok in H as ([P' R'] & HPR & H). simpl in H.
  injection H as <- <- <-. split; [reflexivity|].
  destruct (String.eqb_spec m "DP") as [->|HDP].
  - destruct (String.eqb d "rho").
    + injection HPR as <- <-. repeat split; try discriminate; intros []; done.
    + destruct (String.eqb d "a1"); [|discriminate].
      apply bind_Ok in HPR as (sel & _ & HPR). injection HPR as <- <-.
      repeat split; try discriminate; intros []; done.
  - destruct (String.eqb_spec m "PV") as [->|HPV].
    + injection HPR as <- <-. repeat split; try discriminate; intros []; done.
    + destruct (String.eqb_spec m "IP") as [->|HIP]; [|discriminate].
      destruct (String.eqb_spec d "e") as [->|He]; simpl in HPR.
      { injection HPR as <- <-.
        repeat split; try discriminate; intros (_ & ? & _); done. }
      destruct (String.eqb_spec d "mu") as [->|Hmu]; simpl in HPR.
      { injection HPR as <- <-.
        repeat split; try discriminate; intros (_ & _ & ? & _); done. }
      destruct (String.eqb_spec d "pi") as [->|Hpi].
      { injection HPR as <- <-.
        repeat split; try discriminate; intros (_ & _ & _ & ?); done. }
      injection HPR as <- <-. repeat split; done.
Qed.

Lemma X7_prepareVecs_result_witness :
  ak_map charge [[tau_minus]] = ak_map charge [[tau_minus]] /\
  (@None (ak Particle) = None <-> @None (ak Particle) = None) /\
  (@None (ak Particle) = None <->
   "IP" = "IP" /\ "rho" <> "e" /\ "rho" <> "mu" /\ "rho" <> "pi").
Proof.
  apply (X7_prepareVecs_result [[tau_minus]] [[pion_ss1]] [[]] "IP" "rho").
  reflexivity.
Defined.

(** The outcomes of [_prepareVecs], branch by branch. *)
Lemma _prepareVecs_Ok_inv (hcand hcand_pi hcand_pi0 : ak Particle)
    (m d : string) (_P _R : option (ak Particle)) (hcand_charge : ak R) :
  _prepareVecs hcand hcand_pi hcand_pi0 m d = Ok (_P, _R, hcand_charge) ->
  hcand_charge = ak_map charge hcand /\
  ((m = "DP" /\ d = "rho" /\ _P = Some hcand_pi /\ _R = Some hcand_pi0) \/
   (m = "DP" /\ d = "a1" /\ _P = Some (map a1_choice hcand_pi) /\
    _R = Some (ak_slice 0 1 hcand_pi) /\ Forall a1_sliceable hcand_pi) \/
   (m = "PV" /\ _P = Some hcand /\ _R = Some hcand_pi) \/
   (m = "IP" /\ (d = "e" \/ d = "mu") /\ _P = Some hcand /\ _R = Some hcand) \/
   (m = "IP" /\ d = "pi" /\ _P = Some hcand_pi /\ _R = Some hcand) \/
   (m = "IP" /\ d <> "e" /\ d <> "mu" /\ d <> "pi" /\ _P = None /\ _R = None)).
Proof.
  unfold _prepareVecs. intros H.
  apply bind_Ok in H as ([P' R'] & HPR & H). simpl in H.
  injection H as <- <- <-. split; [reflexivity|].
  destruct (String.eqb_spec m "DP") as [->|HDP].
  - destruct (String.eqb_spec d "rho") as [->|Hrho].
    + injection HPR as <- <-. left. done.
    + destruct (String.eqb_spec d "a1") as [->|Ha1]; [|discriminate].
      apply bind_Ok in HPR as (sel & Hsel & HPR). injection HPR as <- <-.
      pose proof (_get_pi_a1_DP_Ok_sliceable _ _ Hsel) as Hall.
      rewrite (_get_pi_a1_DP_sliceable _ Hall) in Hsel. injection Hsel as <-.
      right. left. done.
  - destruct (String.eqb_spec m "PV") as [->|HPV].
    + injection HPR as <- <-. right. right. left. done.
    + destruct (String.eqb_spec m "IP") as [->|HIP]; [|discriminate].
      do 3 right.
      destruct (String.eqb_spec d "e") as [->|He]; simpl in HPR.
      { injection HPR as <- <-. left. repeat split; try done. by left. }
      destruct (String.eqb_spec d "mu") as [->|Hmu]; simpl in HPR.
      { injection HPR as <- <-. left. repeat split; try done. by right. }
      destruct (String.eqb_spec d "pi") as [->|Hpi].
      { injection HPR as <- <-. right. left. done. }
      injection HPR as <- <-. right. right. done.
Qed.

(** ** The frame, the restructuring and the orchestration *)

Lemma zip_strict_comm {A C : Type} (f : A -> A -> result C) (a b : list A) :
  (forall x y, f x y = f y x) -> zip_strict f a b = zip_strict f b a.
Proof.
  intros Hf. revert b. induction a as [|x a IH]; intros [|y b]; simpl;
    try reflexivity.
  by rewrite Hf, IH.
Qed.

Lemma ak_map2_comm {A C : Type} (f : A -> A -> C) (a b : ak A) :
  (forall x y, f x y = f y x) -> ak_map2 f a b = ak_map2 f b a.
Proof.
  intros Hf. unfold ak_map2, ak_zip. rewrite (Nat.max_comm (length b)).
  apply zip_strict_comm. intros la lb.
  apply zip_strict_comm. intros x y. by rewrite Hf.
Qed.

Lemma p4_add_comm (a b : Particle) : p4_add a b = p4_add b a.
Proof. unfold p4_add, ladd. f_equal; lra. Qed.

Lemma add_arrays_comm (a b : option (ak Particle)) :
  add_arrays a b = add_arrays b a.
Proof.
  destruct a as [a|], b as [b|]; simpl; try reflexivity.
  apply ak_map2_comm, p4_add_comm.
Qed.

Lemma both_PV_pi_comm (m1 m2 d1 d2 : string) :
  both_PV_pi m1 m2 d1 d2 = both_PV_pi m2 m1 d2 d1.
Proof. unfold both_PV_pi. apply bool_decide_ext. tauto. Qed.

Section PipelineFurther.
Variable boost : LorentzVector -> ThreeVector -> LorentzVector.
Variable boostvec : LorentzVector -> ThreeVector.
Variable vunit : ThreeVector -> ThreeVector.
Variable PolarimetricA1_PVC :
  ak LorentzVector -> ak LorentzVector -> ak LorentzVector ->
  ak LorentzVector -> ak R -> result (ak LorentzVector).
Variable astype_float32 : float -> float.

(** X8: the frame does not depend on the order of the two legs: [_getBoost]
    gives the same result, or the same error, when the vectors, methods and
    modes of leg 1 and leg 2 are exchanged. *)
Theorem X8_getBoost_symmetric (P1 R1 P2 R2 : option (ak Particle))
    (m1 m2 d1 d2 : string) :
  _getBoost boostvec P1 R1 P2 R2 m1 m2 d1 d2
  = _getBoost boostvec P2 R2 P1 R1 m2 m1 d2 d1.
Proof.
  rewrite !_getBoost_frame, (both_PV_pi_comm m2 m1 d2 d1).
  by rewrite (add_arrays_comm R2 R1), (add_arrays_comm P2 P1).
Qed.

Ltac shapes_of H :=
  apply ak_map2_shape in H;
  [ destruct H as [? ?]; rewrite ?shape_ak_map in *
  | apply shape_eq_length; rewrite ?shape_ak_map; congruence ].

Lemma boost_to_ZMF_inv (V : option (ak Particle)) (boostv : ak ThreeVector)
    (r : ak LorentzVector) :
  boost_to_ZMF boost V boostv = Ok r -> exists v, V = Some v.
Proof. destruct V as [v|]; simpl; [eauto|discriminate]. Qed.

Lemma boost_to_ZMF_shape (v : ak Particle) (boostv : ak ThreeVector)
    (r : ak LorentzVector) :
  boost_to_ZMF boost (Some v) boostv = Ok r -> length v = length boostv ->
  shape v = shape boostv /\ shape r = shape boostv.
Proof.
  simpl. intros H Hl.
  apply ak_map2_shape in H as [H1 H2];
    [|unfold ak_map; by rewrite length_map].
  rewrite shape_ak_map in H1. split; congruence.
Qed.

Lemma _pv_inv (boostv : ak ThreeVector) (tau pi : option (ak Particle))
    (pi0 : ak Particle) (d : string) (P R H : ak ThreeVector) :
  _pv boost vunit PolarimetricA1_PVC boostv tau pi pi0 d = Ok (P, R, H) ->
  (d = "pi" \/ d = "rho" \/ d = "a1") /\ exists t, tau = Some t.
Proof.
  unfold _pv. intros H0.
  apply bind_Ok in H0 as (P0 & HP0 & H0).
  apply bind_Ok in H0 as (pv & Hpv & H0).
  apply boost_to_ZMF_inv in HP0 as (t & ->).
  split; [|by exists t].
  destruct (String.eqb_spec d "pi"); [by left|].
  destruct (String.eqb_spec d "rho"); [by right; left|].
  destruct (String.eqb_spec d "a1"); [by right; right|]. discriminate.
Qed.

(** Without broadcasting: when the arrays of the leg have as many events as
    there are boost vectors, and the a1 algorithm keeps the number of
    events. *)
Lemma _pv_shapes (boostv : ak ThreeVector) (t : ak Particle)
    (pi : option (ak Particle)) (pi0 : ak Particle) (d : string)
    (P R H : ak ThreeVector) :
  _pv boost vunit PolarimetricA1_PVC boostv (Some t) pi pi0 d = Ok (P, R, H) ->
  keeps_events PolarimetricA1_PVC ->
  length t = length boostv ->
  (forall p, pi = Some p -> length p = length boostv) ->
  length pi0 = length boostv ->
  shape t = shape boostv /\
  shape P = shape boostv /\ shape R = shape boostv /\ shape H = shape boostv.
Proof.
  unfold _pv. intros H0 HPVC Ht Hpi Hpi0.
  apply bind_Ok in H0 as (P0 & HP0 & H0).
  apply bind_Ok in H0 as (pv & Hpv & H0). cbv zeta in H0.
  apply bind_Ok in H0 as (HxP & Hx & H0). injection H0 as <- <- <-.
  apply boost_to_ZMF_shape in HP0 as [Hst HP0]; [|exact Ht].
  assert (Hlpv : length pv = length boostv).
  { destruct (String.eqb_spec d "pi").
    - apply bind_Ok in Hpv as (pi_b & Hb & Hpv). injection Hpv as <-.
      destruct (boost_to_ZMF_inv _ _ _ Hb) as (p & ->).
      apply boost_to_ZMF_shape in Hb as [_ Hb]; [|by apply Hpi].
      unfold ak_map. rewrite length_map. by apply shape_eq_length.
    - destruct (String.eqb_spec d "rho").
      + apply bind_Ok in Hpv as (pi_b & Hb & Hpv).
        apply bind_Ok in Hpv as (pi0_b & Hb0 & Hpv).
        apply bind_Ok in Hpv as (q & Hq & Hpv).
        apply bind_Ok in Hpv as (pipi0 & Hpp & Hpv).
        apply bind_Ok in Hpv as (N & HN & Hpv).
        apply bind_Ok in Hpv as (qN & HqN & Hpv).
        apply bind_Ok in Hpv as (lhs & Hlhs & Hpv).
        apply bind_Ok in Hpv as (rhs & Hrhs & Hpv).
        destruct (boost_to_ZMF_inv _ _ _ Hb) as (p & ->).
        apply boost_to_ZMF_shape in Hb as [_ Hb]; [|by apply Hpi].
        apply boost_to_ZMF_shape in Hb0 as [_ Hb0]; [|exact Hpi0].
        shapes_of Hq. shapes_of Hpp. shapes_of HN. shapes_of HqN.
        shapes_of Hlhs. shapes_of Hrhs. shapes_of Hpv.
        apply shape_eq_length. congruence.
      + destruct (String.eqb_spec d "a1"); [|discriminate].
        destruct pi as [p|]; [|discriminate]. simpl in Hpv.
        pose proof (Hpi p eq_refl) as Hlp.
        apply bind_Ok in Hpv as (os & Hos & Hpv).
        apply bind_Ok in Hpv as (ss1 & Hss1 & Hpv).
        apply bind_Ok in Hpv as (ss2 & Hss2 & Hpv).
        apply bind_Ok in Hpv as (pvc & Hpvc & Hpv). injection Hpv as <-.
        apply ak_map2_shape in Hos as [_ Hos];
          [|unfold ak_slice, ak_map; by rewrite !length_map].
        apply ak_map2_shape in Hss1 as [_ Hss1];
          [|unfold ak_slice, ak_map; by rewrite !length_map].
        apply ak_map2_shape in Hss2 as [_ Hss2];
          [|unfold ak_slice, ak_map; by rewrite !length_map].
        apply shape_eq_length in Hos, Hss1, Hss2, HP0.
        unfold ak_slice in Hos, Hss1, Hss2. rewrite length_map in Hos, Hss1, Hss2.
        unfold ak_map. rewrite length_map.
        eapply (HPVC (length boostv)); [..|exact Hpvc];
          unfold ak_map; rewrite ?length_map; congruence. }
  apply ak_map2_shape in Hx as [Hx1 Hx2].
  2:{ unfold ak_map. rewrite !length_map.
      apply shape_eq_length in HP0. congruence. }
  rewrite !shape_ak_map in *.
  repeat split; congruence.
Qed.

Lemma _reStructureVecs_inv (boostv : ak ThreeVector)
    (V1 V2 : option (ak Particle)) (V3 : ak Particle) (m d : string)
    (Pz Rz Hz : ak ThreeVector) (Y : option (ak R)) :
  _reStructureVecs boost vunit PolarimetricA1_PVC boostv V1 V2 V3 m d
    = Ok (Pz, Rz, Hz, Y) ->
  (exists v1, V1 = Some v1) /\
  ((m = "DP" /\ Hz = Rz /\ (exists v2, V2 = Some v2) /\ is_Some Y) \/
   (m = "PV" /\ Y = None /\ (d = "pi" \/ d = "rho" \/ d = "a1")) \/
   (m = "IP" /\ Hz = Rz /\ Y = None /\ exists v2, V2 = Some v2)).
Proof.
  unfold _reStructureVecs. intros H0.
  destruct (String.eqb_spec m "DP") as [->|HDP].
  - apply bind_Ok in H0 as (pi_ZMF & Hpi & H0).
    apply bind_Ok in H0 as (pi0_ZMF & Hpi0 & H0). cbv zeta in H0.
    apply bind_Ok in H0 as (dots & Hdots & H0).
    apply bind_Ok in H0 as (along & Halong & H0).
    apply bind_Ok in H0 as (tr & Htr & H0).
    apply bind_Ok in H0 as (num & Hnum & H0).
    apply bind_Ok in H0 as (den & Hden & H0).
    apply bind_Ok in H0 as (y & Hy & H0). injection H0 as <- <- <- <-.
    split; [by eapply boost_to_ZMF_inv|].
    left. repeat split; [by eapply boost_to_ZMF_inv|by eexists].
  - destruct (String.eqb_spec m "PV") as [->|HPV].
    + apply bind_Ok in H0 as ([[P' R'] H'] & Hpv & H0).
      injection H0 as <- <- <- <-.
      apply _pv_inv in Hpv as (Hd & Htau).
      split; [exact Htau|]. right. left. done.
    + destruct (String.eqb_spec m "IP") as [->|HIP]; [|discriminate].
      apply bind_Ok in H0 as (V1_b & HV1 & H0). cbv zeta in H0.
      apply bind_Ok in H0 as (IP & HIP & H0).
      apply bind_Ok in H0 as (IP_b & HIPb & H0).
      apply bind_Ok in H0 as (dots & Hdots & H0).
      apply bind_Ok in H0 as (along & Halong & H0).
      apply bind_Ok in H0 as (tr & Htr & H0). injection H0 as <- <- <- <-.
      split; [by eapply boost_to_ZMF_inv|].
      destruct V2 as [v2|]; [|discriminate].
      right. right. repeat split. by exists v2.
Qed.

(** Without broadcasting: when the arrays of the leg have as many events as
    there are boost vectors, every array returned has the shape of the boost
    vectors, and so have the arrays that were boosted. *)
Lemma _reStructureVecs_shapes (boostv : ak ThreeVector)
    (V1 V2 : option (ak Particle)) (V3 : ak Particle) (m d : string)
    (Pz Rz Hz : ak ThreeVector) (Y : option (ak R)) :
  _reStructureVecs boost vunit PolarimetricA1_PVC boostv V1 V2 V3 m d
    = Ok (Pz, Rz, Hz, Y) ->
  keeps_events PolarimetricA1_PVC ->
  (forall v, V1 = Some v -> length v = length boostv) ->
  (forall v, V2 = Some v -> length v = length boostv) ->
  length V3 = length boostv ->
  shape Pz = shape boostv /\ shape Rz = shape boostv /\
  shape Hz = shape boostv /\
  (forall y, Y = Some y -> shape y = shape boostv) /\
  (forall v, V1 = Some v -> shape v = shape boostv) /\
  (m = "DP" \/ m = "IP" -> forall v, V2 = Some v -> shape v = shape boostv).
Proof.
  unfold _reStructureVecs. intros H0 HPVC HV1 HV2 HV3.
  destruct (String.eqb_spec m "DP") as [->|HDP].
  - apply bind_Ok in H0 as (pi_ZMF & Hpi & H0).
    apply bind_Ok in H0 as (pi0_ZMF & Hpi0 & H0). cbv zeta in H0.
    apply bind_Ok in H0 as (dots & Hdots & H0).
    apply bind_Ok in H0 as (along & Halong & H0).
    apply bind_Ok in H0 as (tr & Htr & H0).
    apply bind_Ok in H0 as (num & Hnum & H0).
    apply bind_Ok in H0 as (den & Hden & H0).
    apply bind_Ok in H0 as (y & Hy & H0). injection H0 as <- <- <- <-.
    destruct (boost_to_ZMF_inv _ _ _ Hpi) as (v1 & ->).
    destruct (boost_to_ZMF_inv _ _ _ Hpi0) as (v2 & ->).
    apply boost_to_ZMF_shape in Hpi as [Hv1 Hpi]; [|by apply HV1].
    apply boost_to_ZMF_shape in Hpi0 as [Hv2 Hpi0]; [|by apply HV2].
    shapes_of Hdots. shapes_of Halong. shapes_of Htr.
    shapes_of Hnum. shapes_of Hden. shapes_of Hy.
    repeat split; congruence.
  - destruct (String.eqb_spec m "PV") as [->|HPV].
    + apply bind_Ok in H0 as ([[P' R'] H'] & Hpv & H0).
      injection H0 as <- <- <- <-.
      destruct (_pv_inv _ _ _ _ _ _ _ _ Hpv) as (_ & t & ->).
      apply _pv_shapes in Hpv as (Ht & HP & HR & HH);
        [|assumption|by apply HV1|assumption|assumption].
      repeat split; try assumption.
      * discriminate.
      * intros ? [= <-]. exact Ht.
      * intros [[=]|[=]].
    + destruct (String.eqb_spec m "IP") as [->|HIP]; [|discriminate].
      apply bind_Ok in H0 as (V1_b & HV1b & H0). cbv zeta in H0.
      apply bind_Ok in H0 as (IP & HIP & H0).
      apply bind_Ok in H0 as (IP_b & HIPb & H0).
      apply bind_Ok in H0 as (dots & Hdots & H0).
      apply bind_Ok in H0 as (along & Halong & H0).
      apply bind_Ok in H0 as (tr & Htr & H0). injection H0 as <- <- <- <-.
      destruct (boost_to_ZMF_inv _ _ _ HV1b) as (v1 & ->).
      apply boost_to_ZMF_shape in HV1b as [Hv1 HV1b]; [|by apply HV1].
      destruct V2 as [v2|]; [|discriminate]. injection HIP as <-.
      apply ak_map2_shape in HIPb as [HIP1 HIP2];
        [|unfold ak_map; rewrite !length_map; by apply HV2].
      rewrite !shape_ak_map in *.
      shapes_of Hdots. shapes_of Halong. shapes_of Htr.
      repeat split; congruence.
Qed.

(** X9: whenever [_reStructureVecs] returns, for the methods DP and IP H is
    R itself; a phase shift Y is returned exactly for the method DP; and for
    the method PV the mode is pi, rho or a1.  When, moreover, the arrays of
    the leg have as many events as there are boost vectors (so that no array
    of one event is broadcast) and the a1 algorithm keeps the number of
    events, P, R, H and Y have one entry for every boost vector. *)
Theorem X9_reStructureVecs_result (boostv : ak ThreeVector)
    (V1 V2 : option (ak Particle)) (V3 : ak Particle) (m d : string)
    (Pz Rz Hz : ak ThreeVector) (Y : option (ak R)) :
  _reStructureVecs boost vunit PolarimetricA1_PVC boostv V1 V2 V3 m d
    = Ok (Pz, Rz, Hz, Y) ->
  ((m = "DP" /\ Hz = Rz /\ is_Some Y) \/
   (m = "PV" /\ Y = None /\ (d = "pi" \/ d = "rho" \/ d = "a1")) \/
   (m = "IP" /\ Hz = Rz /\ Y = None)) /\
  (keeps_events PolarimetricA1_PVC ->
   (forall v, V1 = Some v -> length v = length boostv) ->
   (forall v, V2 = Some v -> length v = length boostv) ->
   length V3 = length boostv ->
   shape Pz = shape boostv /\ shape Rz = shape boostv /\
   shape Hz = shape boostv /\
   forall y, Y = Some y -> shape y = shape boostv).
Proof.
  intros H0. split.
  - destruct (_reStructureVecs_inv _ _ _ _ _ _ _ _ _ _ H0) as (_ & Hcases).
    destruct Hcases
      as [(-> & HHR & _ & HY)|[(-> & HY & Hd)|(-> & HHR & HY & _)]].
    + left. done.
    + right. left. done.
    + right. right. done.
  - intros HPVC HV1 HV2 HV3.
    destruct (_reStructureVecs_shapes _ _ _ _ _ _ _ _ _ _ H0 HPVC HV1 HV2 HV3)
      as (HP & HR & HH & HY & _).
    done.
Qed.

Lemma _prepareVecs_lengths (hcand hcand_pi hcand_pi0 : ak Particle)
    (m d : string) (_P _R : option (ak Particle)) (hcand_charge : ak R)
    (n : nat) :
  _prepareVecs hcand hcand_pi hcand_pi0 m d = Ok (_P, _R, hcand_charge) ->
  length hcand = n -> length hcand_pi = n -> length hcand_pi0 = n ->
  (forall v, _P = Some v -> length v = n) /\
  (forall v, _R = Some v -> length v = n).
Proof.
  intros H Hh Hp Hp0.
  destruct (_prepareVecs_Ok_inv _ _ _ _ _ _ _ _ H) as [_ Hc].
  destruct Hc
    as [(_ & _ & -> & ->)|[(_ & _ & -> & -> & _)|[(_ & -> & ->)|
        [(_ & _ & -> & ->)|[(_ & _ & -> & ->)|(_ & _ & _ & _ & -> & ->)]]]]];
    split; intros v [= <-]; unfold ak_slice; rewrite ?length_map; assumption.
Qed.

Lemma _getBoost_length (P1 R1 P2 R2 : option (ak Particle))
    (m1 m2 d1 d2 : string) (boostv : ak ThreeVector) (n : nat) :
  _getBoost boostvec P1 R1 P2 R2 m1 m2 d1 d2 = Ok boostv ->
  (forall v, P1 = Some v -> length v = n) ->
  (forall v, R1 = Some v -> length v = n) ->
  (forall v, P2 = Some v -> length v = n) ->
  (forall v, R2 = Some v -> length v = n) ->
  length boostv = n.
Proof.
  rewrite _getBoost_frame. intros H HP1 HR1 HP2 HR2.
  apply bind_Ok in H as (frame & Hf & H). injection H as <-.
  unfold ak_map. rewrite length_map.
  destruct (both_PV_pi m1 m2 d1 d2).
  - destruct R1 as [a|], R2 as [b|]; try discriminate. simpl in Hf.
    apply ak_map2_shape in Hf as [_ Hf];
      [|by rewrite (HR1 a eq_refl), (HR2 b eq_refl)].
    apply shape_eq_length in Hf. rewrite Hf. by apply HR1.
  - destruct P1 as [a|], P2 as [b|]; try discriminate. simpl in Hf.
    apply ak_map2_shape in Hf as [_ Hf];
      [|by rewrite (HP1 a eq_refl), (HP2 b eq_refl)].
    apply shape_eq_length in Hf. rewrite Hf. by apply HP1.
Qed.

Lemma PrepareVecsForPhiCP_Ok_inv (d : gmap string (ak Particle))
    (m1 m2 d1 d2 : string) (out : gmap string value) :
  PrepareVecsForPhiCP boost boostvec vunit PolarimetricA1_PVC d m1 m2 d1 d2
    = Ok out ->
  exists p4h1 p4h1pi p4h1pi0 p4h2 p4h2pi p4h2pi0 _P1 _R1 _P2 _R2
         boostv P1 R1 H1 Y1 P2 R2 H2 Y2,
    d !! "p4h1" = Some p4h1 /\ d !! "p4h1pi" = Some p4h1pi /\
    d !! "p4h1pi0" = Some p4h1pi0 /\ d !! "p4h2" = Some p4h2 /\
    d !! "p4h2pi" = Some p4h2pi /\ d !! "p4h2pi0" = Some p4h2pi0 /\
    _prepareVecs p4h1 p4h1pi p4h1pi0 m1 d1
      = Ok (_P1, _R1, ak_map charge p4h1) /\
    _prepareVecs p4h2 p4h2pi p4h2pi0 m2 d2
      = Ok (_P2, _R2, ak_map charge p4h2) /\
    _getBoost boostvec _P1 _R1 _P2 _R2 m1 m2 d1 d2 = Ok boostv /\
    _reStructureVecs boost vunit PolarimetricA1_PVC
                     boostv _P1 _R1 p4h1pi0 m1 d1 = Ok (P1, R1, H1, Y1) /\
    _reStructureVecs boost vunit PolarimetricA1_PVC
                     boostv _P2 _R2 p4h2pi0 m2 d2 = Ok (P2, R2, H2, Y2) /\
    out = vecsdict_of (VVec P1) (VVec R1) (VVec H1)
                      (VNum (ak_map charge p4h1))
                      (VVec P2) (VVec R2) (VVec H2)
                      (VNum (ak_map charge p4h2))
                      (value_of_Y Y1) (value_of_Y Y2).
Proof.
  intros H. unfold PrepareVecsForPhiCP, getp4 in H.
  destruct (d !! "p4h1") as [p4h1|] eqn:Hk1; [|discriminate].
  destruct (d !! "p4h1pi") as [p4h1pi|] eqn:Hk2; [|discriminate].
  destruct (d !! "p4h1pi0") as [p4h1pi0|] eqn:Hk3; [|discriminate].
  destruct (d !! "p4h2") as [p4h2|] eqn:Hk4; [|discriminate].
  destruct (d !! "p4h2pi") as [p4h2pi|] eqn:Hk5; [|discriminate].
  destruct (d !! "p4h2pi0") as [p4h2pi0|] eqn:Hk6; [|discriminate].
  simpl in H.
  apply bind_Ok in H as ([[_P1 _R1] _C1] & Hleg1 & H).
  apply bind_Ok in H as ([[_P2 _R2] _C2] & Hleg2 & H).
  apply bind_Ok in H as (boostv & Hboost & H).
  apply bind_Ok in H as ([[[P1 R1] H1] Y1] & Hre1 & H).
  apply bind_Ok in H as ([[[P2 R2] H2] Y2] & Hre2 & H).
  injection H as <-.
  destruct (_prepareVecs_Ok_inv _ _ _ _ _ _ _ _ Hleg1) as [-> _].
  destruct (_prepareVecs_Ok_inv _ _ _ _ _ _ _ _ Hleg2) as [-> _].
  exists p4h1, p4h1pi, p4h1pi0, p4h2, p4h2pi, p4h2pi0, _P1, _R1, _P2, _R2,
    boostv, P1, R1, H1, Y1, P2, R2, H2, Y2.
  repeat split; assumption.
Qed.

(** X10: a missing name of the input dict is reported first: when the dict
    lacks one of the six names, [PrepareVecsForPhiCP] raises [KeyError] for
    the first of them in reading order, whatever the methods and modes. *)
Theorem X10_missing_input (d : gmap string (ak Particle))
    (m1 m2 d1 d2 : string) (k : string) :
  first_missing d = Some k ->
  PrepareVecsForPhiCP boost boostvec vunit PolarimetricA1_PVC d m1 m2 d1 d2
  = Raise (KeyError k).
Proof.
  unfold first_missing, six_names, PrepareVecsForPhiCP, getp4. simpl.
  intros H.
  repeat (match type of H with
          | context [bool_decide (d !! ?key = None)] =>
              destruct (d !! key) eqn:?; simpl in H;
              [|by injection H as <-]
          end; simpl).
  discriminate.
Qed.

Lemma ComputeAcopAngle_aligned (P1 R1 H1 P2 R2 H2 : ak ThreeVector)
    (C1 : ak R) (C2 : value) (Y1 Y2 : option (ak R)) :
  shape R1 = shape P1 -> shape H1 = shape P1 -> shape C1 = shape P1 ->
  shape P2 = shape P1 -> shape R2 = shape P1 -> shape H2 = shape P1 ->
  (forall y, Y1 = Some y -> shape y = shape P1) ->
  (forall y, Y2 = Some y -> shape y = shape P1) ->
  exists angles,
    ComputeAcopAngle
      (vecsdict_of (VVec P1) (VVec R1) (VVec H1) (VNum C1)
                   (VVec P2) (VVec R2) (VVec H2) C2
                   (value_of_Y Y1) (value_of_Y Y2)) = Ok angles /\
    shape angles = shape P1.
Proof.
  intros HR1 HH1 HC1 HP2 HR2 HH2 HY1 HY2.
  destruct (events_of_columns P1 R1 H1 P2 R2 H2 C1
              (ak_map (fun _ => 0) P1) (Y_or_zeros Y1 P1) (Y_or_zeros Y2 P1))
    as (E & -> & -> & -> & -> & -> & -> & -> & _ & HE1 & HE2);
    try assumption; try apply shape_ak_map.
  { destruct Y1 as [y|]; simpl; [by apply HY1|apply shape_ak_map]. }
  { destruct Y2 as [y|]; simpl; [by apply HY2|apply shape_ak_map]. }
  exists (ak_map (acop_event (bool_decide (is_Some Y1))
                             (bool_decide (is_Some Y2))) E).
  split; [|by rewrite !shape_ak_map].
  rewrite ComputeAcopAngle_vecsdict_of.
  replace (value_of_Y Y1) with (Y_column (bool_decide (is_Some Y1)) eY1 E)
    by (destruct Y1 as [y|]; simpl in *; [by subst|reflexivity]).
  replace (value_of_Y Y2) with (Y_column (bool_decide (is_Some Y2)) eY2 E)
    by (destruct Y2 as [y|]; simpl in *; [by subst|reflexivity]).
  apply angle_of_components_columns.
Qed.

Ltac one_of_six :=
  unfold six_names;
  repeat first [apply list_elem_of_here | apply list_elem_of_further].

(** Without broadcasting: when the six arrays of the input have the same
    number of events, the arrays of both legs have the shape of the boost
    vectors. *)
Lemma legs_aligned (n : nat)
    (p4h1 p4h1pi p4h1pi0 p4h2 p4h2pi p4h2pi0 : ak Particle)
    (m1 m2 d1 d2 : string) (_P1 _R1 _P2 _R2 : option (ak Particle))
    (c1 c2 : ak R) (boostv P1 R1 H1 P2 R2 H2 : ak ThreeVector)
    (Y1 Y2 : option (ak R)) :
  keeps_events PolarimetricA1_PVC ->
  length p4h1 = n -> length p4h1pi = n -> length p4h1pi0 = n ->
  length p4h2 = n -> length p4h2pi = n -> length p4h2pi0 = n ->
  _prepareVecs p4h1 p4h1pi p4h1pi0 m1 d1 = Ok (_P1, _R1, c1) ->
  _prepareVecs p4h2 p4h2pi p4h2pi0 m2 d2 = Ok (_P2, _R2, c2) ->
  _getBoost boostvec _P1 _R1 _P2 _R2 m1 m2 d1 d2 = Ok boostv ->
  _reStructureVecs boost vunit PolarimetricA1_PVC
                   boostv _P1 _R1 p4h1pi0 m1 d1 = Ok (P1, R1, H1, Y1) ->
  _reStructureVecs boost vunit PolarimetricA1_PVC
                   boostv _P2 _R2 p4h2pi0 m2 d2 = Ok (P2, R2, H2, Y2) ->
  shape P1 = shape boostv /\ shape R1 = shape boostv /\
  shape H1 = shape boostv /\ shape P2 = shape boostv /\
  shape R2 = shape boostv /\ shape H2 = shape boostv /\
  (forall y, Y1 = Some y -> shape y = shape boostv) /\
  (forall y, Y2 = Some y -> shape y = shape boostv) /\
  (forall v, _P1 = Some v -> shape v = shape boostv) /\
  (m1 = "DP" \/ m1 = "IP" -> forall v, _R1 = Some v -> shape v = shape boostv).
Proof.
  intros HPVC Hl1 Hl2 Hl3 Hl4 Hl5 Hl6 Hsel1 Hsel2 Hboost Hre1 Hre2.
  destruct (_prepareVecs_lengths _ _ _ _ _ _ _ _ n Hsel1 Hl1 Hl2 Hl3)
    as [HlP1 HlR1].
  destruct (_prepareVecs_lengths _ _ _ _ _ _ _ _ n Hsel2 Hl4 Hl5 Hl6)
    as [HlP2 HlR2].
  pose proof (_getBoost_length _ _ _ _ _ _ _ _ _ n Hboost HlP1 HlR1 HlP2 HlR2)
    as Hlb.
  destruct (_reStructureVecs_shapes _ _ _ _ _ _ _ _ _ _ Hre1 HPVC)
    as (HP1 & HR1 & HH1 & HY1 & HV1 & HV2);
    [intros; rewrite Hlb; auto..|congruence|].
  destruct (_reStructureVecs_shapes _ _ _ _ _ _ _ _ _ _ Hre2 HPVC)
    as (HP2 & HR2 & HH2 & HY2 & _);
    [intros; rewrite Hlb; auto..|congruence|].
  repeat split; assumption.
Qed.

(** X11: the dict that [PrepareVecsForPhiCP] returns has exactly the ten
    names; the phase shift of a leg is present exactly when the method of the
    leg is DP; [ComputeAcopAngle] raises no structural error on it; and when
    the six arrays of the input have the same number of events (so that no
    array of one event is broadcast) and the a1 algorithm keeps the number
    of events, its six vector components and its phase shifts are aligned
    arrays. *)
Theorem X11_prepared_dict (d : gmap string (ak Particle))
    (m1 m2 d1 d2 : string) (out : gmap string value) :
  PrepareVecsForPhiCP boost boostvec vunit PolarimetricA1_PVC d m1 m2 d1 d2
    = Ok out ->
  dom out = ten_names /\
  (exists (P1 R1 H1 P2 R2 H2 : ak ThreeVector) (C1 C2 : ak R)
          (Y1 Y2 : option (ak R)),
     out = vecsdict_of (VVec P1) (VVec R1) (VVec H1) (VNum C1)
                       (VVec P2) (VVec R2) (VVec H2) (VNum C2)
                       (value_of_Y Y1) (value_of_Y Y2) /\
     (is_Some Y1 <-> m1 = "DP") /\ (is_Some Y2 <-> m2 = "DP") /\
     (forall n, input_events n d -> keeps_events PolarimetricA1_PVC ->
        shape R1 = shape P1 /\ shape H1 = shape P1 /\ shape P2 = shape P1 /\
        shape R2 = shape P1 /\ shape H2 = shape P1 /\
        (forall y, Y1 = Some y -> shape y = shape P1) /\
        (forall y, Y2 = Some y -> shape y = shape P1))) /\
  (forall e, ComputeAcopAngle out = Raise e -> is_structural e = false).
Proof.
  intros H.
  destruct (PrepareVecsForPhiCP_Ok_inv _ _ _ _ _ _ H)
    as (p4h1 & p4h1pi & p4h1pi0 & p4h2 & p4h2pi & p4h2pi0 & _P1 & _R1 & _P2 &
        _R2 & boostv & P1 & R1 & H1 & Y1 & P2 & R2 & H2 & Y2 &
        Hk1 & Hk2 & Hk3 & Hk4 & Hk5 & Hk6 & Hsel1 & Hsel2 & Hboost &
        Hre1 & Hre2 & ->).
  destruct (_reStructureVecs_inv _ _ _ _ _ _ _ _ _ _ Hre1) as (_ & Hc1).
  destruct (_reStructureVecs_inv _ _ _ _ _ _ _ _ _ _ Hre2) as (_ & Hc2).
  split; [apply vecsdict_of_dom|]. split.
  - exists P1, R1, H1, P2, R2, H2, (ak_map charge p4h1), (ak_map charge p4h2),
      Y1, Y2.
    split; [reflexivity|]. split; [|split].
    + split.
      * destruct Hc1 as [(-> & _)|[(-> & -> & _)|(-> & _ & -> & _)]];
          try reflexivity; intros [? [=]].
      * intros ->.
        by destruct Hc1 as [(_ & _ & _ & HY)|[([=] & _)|([=] & _)]].
    + split.
      * destruct Hc2 as [(-> & _)|[(-> & -> & _)|(-> & _ & -> & _)]];
          try reflexivity; intros [? [=]].
      * intros ->.
        by destruct Hc2 as [(_ & _ & _ & HY)|[([=] & _)|([=] & _)]].
    + intros n Hn HPVC.
      destruct (legs_aligned n p4h1 p4h1pi p4h1pi0 p4h2 p4h2pi p4h2pi0
                  m1 m2 d1 d2 _P1 _R1 _P2 _R2 (ak_map charge p4h1)
                  (ak_map charge p4h2) boostv P1 R1 H1 P2 R2 H2
                  Y1 Y2 HPVC)
        as (HP1 & HR1 & HH1 & HP2 & HR2 & HH2 & HY1 & HY2 & _);
        try assumption;
        try (eapply Hn; [|eassumption]; one_of_six).
      repeat split; try congruence.
      * intros y Hy. rewrite (HY1 y Hy). congruence.
      * intros y Hy. rewrite (HY2 y Hy). congruence.
  - intros e. rewrite ComputeAcopAngle_vecsdict_of.
    apply numeric_only_angle_of_components.
Qed.

Lemma leg_supported (hcand hcand_pi hcand_pi0 : ak Particle) (m d : string)
    (_P _R : option (ak Particle)) (hcand_charge : ak R)
    (boostv : ak ThreeVector) (Pz Rz Hz : ak ThreeVector)
    (Y : option (ak R)) :
  _prepareVecs hcand hcand_pi hcand_pi0 m d = Ok (_P, _R, hcand_charge) ->
  _reStructureVecs boost vunit PolarimetricA1_PVC boostv _P _R hcand_pi0 m d
    = Ok (Pz, Rz, Hz, Y) ->
  supported m d = true.
Proof.
  intros Hsel Hre.
  destruct (_prepareVecs_Ok_inv _ _ _ _ _ _ _ _ Hsel) as [_ Hcases].
  destruct (_reStructureVecs_inv _ _ _ _ _ _ _ _ _ _ Hre)
    as ((v1 & Hv1) & Hm).
  destruct Hcases
    as [(-> & -> & _)|[(-> & -> & _)|[(-> & _)|[(-> & [->| ->] & _)|
        [(-> & -> & _)|(_ & _ & _ & _ & -> & _)]]]]];
    try reflexivity; try discriminate.
  destruct Hm as [([=] & _)|[(_ & _ & [->|[->| ->]])|([=] & _)]]; reflexivity.
Qed.

(** X12: a pair of method and mode outside the table of the docstrings, on
    either leg, never gives a dict: [PrepareVecsForPhiCP] fails. *)
Theorem X12_unsupported_pair_fails (d : gmap string (ak Particle))
    (m1 m2 d1 d2 : string) :
  supported m1 d1 = false \/ supported m2 d2 = false ->
  exists e,
    PrepareVecsForPhiCP boost boostvec vunit PolarimetricA1_PVC d m1 m2 d1 d2
    = Raise e.
Proof.
  intros Hns.
  destruct (PrepareVecsForPhiCP boost boostvec vunit PolarimetricA1_PVC
              d m1 m2 d1 d2) as [out|e] eqn:H; [|by exists e].
  exfalso.
  destruct (PrepareVecsForPhiCP_Ok_inv _ _ _ _ _ _ H)
    as (p4h1 & p4h1pi & p4h1pi0 & p4h2 & p4h2pi & p4h2pi0 & _P1 & _R1 & _P2 &
        _R2 & boostv & P1 & R1 & H1 & Y1 & P2 & R2 & H2 & Y2 &
        _ & _ & _ & _ & _ & _ & Hsel1 & Hsel2 & _ & Hre1 & Hre2 & _).
  pose proof (leg_supported _ _ _ _ _ _ _ _ _ _ _ _ _ Hsel1 Hre1).
  pose proof (leg_supported _ _ _ _ _ _ _ _ _ _ _ _ _ Hsel2 Hre2).
  destruct Hns; congruence.
Qed.

(** X13: when the six arrays of the input have the same number of events
    (so that no array of one event is broadcast) and the a1 algorithm keeps
    the number of events, [GetPhiCP] returns one angle for every candidate
    of leg 1 whenever [PrepareVecsForPhiCP] returns and the candidates of
    leg 1 are aligned with the vectors of the leg; for the methods PV and IP
    they always are, for DP they are when there is one pi0 (mode rho), or
    one first pion (mode a1), for every candidate.  The candidates of leg 2
    need not be aligned. *)
Theorem X13_GetPhiCP_returns (d : gmap string (ak Particle))
    (m1 m2 d1 d2 : string) (out : gmap string value)
    (p4h1 p4h1pi p4h1pi0 : ak Particle) (n : nat) :
  input_events n d ->
  keeps_events PolarimetricA1_PVC ->
  PrepareVecsForPhiCP boost boostvec vunit PolarimetricA1_PVC d m1 m2 d1 d2
    = Ok out ->
  d !! "p4h1" = Some p4h1 -> d !! "p4h1pi" = Some p4h1pi ->
  d !! "p4h1pi0" = Some p4h1pi0 ->
  (m1 = "PV" \/ m1 = "IP" \/
   (m1 = "DP" /\ d1 = "rho" /\ shape p4h1 = shape p4h1pi0) \/
   (m1 = "DP" /\ d1 = "a1" /\ shape p4h1 = shape (ak_slice 0 1 p4h1pi))) ->
  exists phicp,
    GetPhiCP boost boostvec vunit PolarimetricA1_PVC astype_float32
             d m1 m2 d1 d2 = Ok phicp /\
    shape phicp = shape p4h1.
Proof.
  intros Hn HPVC H Hk1 Hk2 Hk3 Hal.
  destruct (PrepareVecsForPhiCP_Ok_inv _ _ _ _ _ _ H)
    as (p4h1' & p4h1pi' & p4h1pi0' & p4h2 & p4h2pi & p4h2pi0 & _P1 & _R1 &
        _P2 & _R2 & boostv & P1 & R1 & H1 & Y1 & P2 & R2 & H2 & Y2 &
        Hk1' & Hk2' & Hk3' & Hk4 & Hk5 & Hk6 & Hsel1 & Hsel2 & Hboost &
        Hre1 & Hre2 & Hout).
  assert (p4h1' = p4h1) as -> by congruence.
  assert (p4h1pi' = p4h1pi) as -> by congruence.
  assert (p4h1pi0' = p4h1pi0) as -> by congruence.
  destruct (legs_aligned n p4h1 p4h1pi p4h1pi0 p4h2 p4h2pi p4h2pi0
              m1 m2 d1 d2 _P1 _R1 _P2 _R2 (ak_map charge p4h1)
                  (ak_map charge p4h2) boostv P1 R1 H1 P2 R2 H2
              Y1 Y2 HPVC)
    as (HP1 & HR1 & HH1 & HP2 & HR2 & HH2 & HY1 & HY2 & HV1 & HV2);
    try assumption;
    try (eapply Hn; [|eassumption]; one_of_six).
  destruct (_prepareVecs_Ok_inv _ _ _ _ _ _ _ _ Hsel1) as [_ Hcases].
  destruct (_reStructureVecs_inv _ _ _ _ _ _ _ _ _ _ Hre1) as ((v1 & Hv1) & _).
  assert (HC1 : shape p4h1 = shape boostv).
  { destruct Hcases
      as [(-> & -> & -> & ->)|[(-> & -> & -> & -> & _)|[(-> & -> & ->)|
          [(-> & _ & -> & ->)|[(-> & -> & -> & ->)|
           (_ & _ & _ & _ & -> & _)]]]]]; try discriminate.
    - destruct Hal as [[=]|[[=]|[(_ & _ & Hsh)|(_ & [=] & _)]]].
      rewrite Hsh. apply HV2; [by left|reflexivity].
    - destruct Hal as [[=]|[[=]|[(_ & [=] & _)|(_ & _ & Hsh)]]].
      rewrite Hsh. apply HV2; [by left|reflexivity].
    - by apply HV1.
    - by apply HV1.
    - apply HV2; [by right|reflexivity]. }
  destruct (ComputeAcopAngle_aligned P1 R1 H1 P2 R2 H2 (ak_map charge p4h1)
              (VNum (ak_map charge p4h2)) Y1 Y2) as (angles & Hrun & Hsh);
    try congruence.
  { rewrite shape_ak_map. congruence. }
  { intros y Hy. rewrite (HY1 y Hy). congruence. }
  { intros y Hy. rewrite (HY2 y Hy). congruence. }
  exists (ak_map astype_float32 angles). split.
  - unfold GetPhiCP. rewrite H. simpl. rewrite Hout, Hrun. reflexivity.
  - rewrite shape_ak_map. congruence.
Qed.
End PipelineFurther.

Lemma sample_PVC_keeps_events : keeps_events sample_PVC.
Proof. intros n P os ss1 ss2 c r _ _ _ _ _. discriminate. Qed.

Lemma sample_input_events : input_events 1 sample_p4hcandinfodict.
Proof.
  intros k a Hk Hl. unfold six_names in Hk.
  repeat (apply elem_of_cons in Hk as [->|Hk];
          [vm_compute in Hl; by injection Hl as <-|]).
  by apply elem_of_nil in Hk.
Qed.

Lemma X9_reStructureVecs_result_witness :
  exists (Pz Rz Hz : ak ThreeVector) (Y : option (ak R)),
    _reStructureVecs sample_boost sample_vunit sample_PVC [[mkV3 0 0 0]]
                     (Some [[tau_minus]]) (Some [[pion_ss1]]) [[]] "PV" "pi"
      = Ok (Pz, Rz, Hz, Y) /\
    shape Pz = [1%nat].
Proof.
  do 4 eexists. split; [reflexivity|].
  eapply proj1.
  eapply (proj2 (X9_reStructureVecs_result sample_boost sample_vunit
                   sample_PVC [[mkV3 0 0 0]] (Some [[tau_minus]])
                   (Some [[pion_ss1]]) [[]] "PV" "pi" _ _ _ _ eq_refl)).
  - exact sample_PVC_keeps_events.
  - by intros v [= <-].
  - by intros v [= <-].
  - reflexivity.
Defined.

Lemma X10_missing_input_witness :
  PrepareVecsForPhiCP sample_boost sample_boostvec sample_vunit sample_PVC
                      (delete "p4h1pi0" sample_p4hcandinfodict)
                      "PV" "PV" "pi" "pi"
  = Raise (KeyError "p4h1pi0").
Proof. apply X10_missing_input. reflexivity. Defined.

Lemma X11_prepared_dict_witness :
  exists out,
    PrepareVecsForPhiCP sample_boost sample_boostvec sample_vunit sample_PVC
                        sample_p4hcandinfodict "PV" "PV" "pi" "pi" = Ok out /\
    dom out = ten_names.
Proof.
  eexists. split; [reflexivity|].
  eapply proj1.
  eapply (X11_prepared_dict sample_boost sample_boostvec sample_vunit
            sample_PVC sample_p4hcandinfodict "PV" "PV" "pi" "pi").
  reflexivity.
Defined.

Lemma X12_unsupported_pair_fails_witness :
  exists e,
    PrepareVecsForPhiCP sample_boost sample_boostvec sample_vunit sample_PVC
                        sample_p4hcandinfodict "IP" "PV" "rho" "pi" = Raise e.
Proof. apply X12_unsupported_pair_fails. left. reflexivity. Defined.

Lemma X13_GetPhiCP_returns_witness :
  exists phicp,
    GetPhiCP sample_boost sample_boostvec sample_vunit sample_PVC
             sample_float32 sample_p4hcandinfodict "PV" "PV" "pi" "pi"
      = Ok phicp /\
    shape phicp = shape [[tau_minus]].
Proof.
  eapply (X13_GetPhiCP_returns sample_boost sample_boostvec sample_vunit
            sample_PVC sample_float32 sample_p4hcandinfodict
            "PV" "PV" "pi" "pi" _ [[tau_minus]] [[pion_ss1]] [[]] 1
            sample_input_events sample_PVC_keeps_events);
    [reflexivity|reflexivity|reflexivity|reflexivity|by left].
Defined.

(** ** The structural errors of the angle computation, exactly *)

Lemma ComputeAcopAngle_wrong_size (d : gmap string value) :
  size d <> 10%nat ->
  ComputeAcopAngle d = Raise (AssertionError assert_message).
Proof.
  intros Hs. unfold ComputeAcopAngle.
  apply Nat.eqb_neq in Hs. by rewrite Hs.
Qed.

Lemma ComputeAcopAngle_size_10 (d : gmap string value) :
  size d = 10%nat ->
  (first_missing_component d = None /\
   exists P1 R1 H1 C1 P2 R2 H2 C2 Y1 Y2,
     ComputeAcopAngle d = angle_of_components P1 R1 H1 C1 P2 R2 H2 C2 Y1 Y2) \/
  (exists k, first_missing_component d = Some k /\
             ComputeAcopAngle d = Raise (KeyError k)).
Proof.
  intros Hs. unfold ComputeAcopAngle, first_missing_component,
    ten_names_in_order, getitem.
  apply Nat.eqb_eq in Hs. rewrite Hs. simpl.
  repeat (match goal with
          | |- context [bool_decide (d !! ?key = None)] =>
              destruct (d !! key) eqn:?; simpl;
              [|right; eexists; split; reflexivity]
          end).
  left. split; [reflexivity|]. by do 10 eexists.
Qed.

(** X14: the structural errors of [ComputeAcopAngle], exactly.  It raises
    [AssertionError], with the message of the assertion, exactly when the
    dict does not have ten entries, whatever its names; and it raises
    [KeyError] for a name exactly when the dict has ten entries and the name
    is the first, in reading order, that the dict lacks. *)
Theorem X14_structural_errors (d : gmap string value) (msg k : string) :
  (ComputeAcopAngle d = Raise (AssertionError msg) <->
   size d <> 10%nat /\ msg = assert_message) /\
  (ComputeAcopAngle d = Raise (KeyError k) <->
   size d = 10%nat /\ first_missing_component d = Some k).
Proof.
  destruct (decide (size d = 10%nat)) as [Hs|Hs].
  - destruct (ComputeAcopAngle_size_10 d Hs)
      as [(Hnone & P1 & R1 & H1 & C1 & P2 & R2 & H2 & C2 & Y1 & Y2 & Hrun)|
          (k' & Hk' & Hrun)]; rewrite Hrun.
    + split; (split; [|intros [? ?]; congruence]); intros He;
        by apply numeric_only_angle_of_components in He.
    + split; (split; [|intros [? ?]; congruence]).
      * discriminate.
      * intros [= <-]. done.
  - rewrite (ComputeAcopAngle_wrong_size d Hs). split; split.
    + intros [= <-]. done.
    + intros [_ ->]. reflexivity.
    + discriminate.
    + intros [? _]. done.
Qed.

(** ** The range on which the wrap is a reduction modulo 2 pi *)

Lemma Forall2_ak_map_of {A B : Type} (P : A -> Prop) (Q : A -> B -> Prop)
    (f : A -> B) (a : ak A) :
  (forall x, P x -> Q x (f x)) ->
  Forall (Forall P) a -> Forall2 (Forall2 Q) a (ak_map f a).
Proof.
  intros Hf Ha. unfold ak_map.
  induction Ha as [|l a Hl _ IH]; simpl; constructor; [|exact IH].
  induction Hl as [|x l Hx _ IHl]; simpl; constructor; auto.
Qed.

(** X15: on an array of numbers between -2 pi and 4 pi the two steps of the
    wrap return, for every entry, a number of [0, 2 pi] that is the entry
    itself, the entry minus 2 pi or the entry plus 2 pi. *)
Theorem X15_wrap_reduces (acop : ak float) :
  Forall (Forall (fun a => exists r, a = Num r /\
                                     - (2 * PI) <= r <= 4 * PI)) acop ->
  exists w,
    wrap_angle acop = Ok w /\
    Forall2 (Forall2 (fun a b =>
      exists r s, a = Num r /\ b = Num s /\ 0 <= s <= 2 * PI /\
                  (s = r \/ s = r - 2 * PI \/ s = r + 2 * PI))) acop w.
Proof.
  intros Ha. exists (ak_map wrap acop). split; [apply wrap_angle_total|].
  eapply Forall2_ak_map_of; [|exact Ha].
  intros a (r & -> & Hr). pose proof PI_RGT_0.
  unfold wrap, fgtb, fltb, Rltb. simpl.
  real_cases; simpl; real_cases; simpl;
    eexists _, _; (split; [reflexivity|]); (split; [reflexivity|]);
    (split; [lra|]); first [by left | by right; left | by right; right | lra].
Qed.

Lemma X15_wrap_reduces_witness :
  exists w,
    wrap_angle [[Num 0]] = Ok w /\
    Forall2 (Forall2 (fun a b =>
      exists r s, a = Num r /\ b = Num s /\ 0 <= s <= 2 * PI /\
                  (s = r \/ s = r - 2 * PI \/ s = r + 2 * PI))) [[Num 0]] w.
Proof.
  apply X15_wrap_reduces. apply Forall_singleton, Forall_singleton.
  exists 0. pose proof PI_RGT_0. split; [reflexivity|lra].
Defined.

(** ** Entries of the input dict that are not read *)

Section InputDict.
Variable boost : LorentzVector -> ThreeVector -> LorentzVector.
Variable boostvec : LorentzVector -> ThreeVector.
Variable vunit : ThreeVector -> ThreeVector.
Variable PolarimetricA1_PVC :
  ak LorentzVector -> ak LorentzVector -> ak LorentzVector ->
  ak LorentzVector -> ak R -> result (ak LorentzVector).
Variable astype_float32 : float -> float.

(** X16: [PrepareVecsForPhiCP] and [GetPhiCP] read the six names of the
    input dict and nothing else: an entry under any other name does not
    change their result. *)
Theorem X16_other_entries_ignored (d : gmap string (ak Particle))
    (k : string) (v : ak Particle) (m1 m2 d1 d2 : string) :
  k ∉ six_names ->
  PrepareVecsForPhiCP boost boostvec vunit PolarimetricA1_PVC
                      (<[k := v]> d) m1 m2 d1 d2
  = PrepareVecsForPhiCP boost boostvec vunit PolarimetricA1_PVC
                        d m1 m2 d1 d2 /\
  GetPhiCP boost boostvec vunit PolarimetricA1_PVC astype_float32
           (<[k := v]> d) m1 m2 d1 d2
  = GetPhiCP boost boostvec vunit PolarimetricA1_PVC astype_float32
             d m1 m2 d1 d2.
Proof.
  intros Hk. unfold six_names in Hk.
  repeat (apply not_elem_of_cons in Hk as [? Hk]).
  assert (Heq : PrepareVecsForPhiCP boost boostvec vunit PolarimetricA1_PVC
                  (<[k := v]> d) m1 m2 d1 d2
                = PrepareVecsForPhiCP boost boostvec vunit PolarimetricA1_PVC
                    d m1 m2 d1 d2).
  { unfold PrepareVecsForPhiCP, getp4.
    by rewrite !lookup_insert_ne by done. }
  split; [exact Heq|]. unfold GetPhiCP. by rewrite Heq.
Qed.
End InputDict.

Lemma X16_other_entries_ignored_witness :
  PrepareVecsForPhiCP sample_boost sample_boostvec sample_vunit sample_PVC
                      (<["met" := [[]]]> sample_p4hcandinfodict)
                      "PV" "PV" "pi" "pi"
  = PrepareVecsForPhiCP sample_boost sample_boostvec sample_vunit sample_PVC
                        sample_p4hcandinfodict "PV" "PV" "pi" "pi" /\
  GetPhiCP sample_boost sample_boostvec sample_vunit sample_PVC sample_float32
           (<["met" := [[]]]> sample_p4hcandinfodict) "PV" "PV" "pi" "pi"
  = GetPhiCP sample_boost sample_boostvec sample_vunit sample_PVC
             sample_float32 sample_p4hcandinfodict "PV" "PV" "pi" "pi".
Proof.
  apply X16_other_entries_ignored. unfold six_names.
  repeat (apply not_elem_of_cons; split; [done|]). apply not_elem_of_nil.
Defined.

Lemma X14_structural_errors_witness :
  ComputeAcopAngle ∅ = Raise (AssertionError assert_message).
Proof.
  apply (proj2 (proj1 (X14_structural_errors ∅ assert_message ""))).
  split; [|reflexivity]. rewrite map_size_empty. discriminate.
Defined.

(** ** Broadcasting of a batch of one event *)

Lemma ak_map_one_each {A B : Type} (f : A -> B) (l : list A) :
  ak_map f (one_each l) = one_each (map f l).
Proof. unfold ak_map, one_each. rewrite !map_map. reflexivity. Qed.

Lemma ak_zip_replicate {A B C : Type} (f : A -> B -> C) (x : A) (l : list B) :
  ak_zip f (replicate (length l) [x]) (one_each l)
  = Ok (one_each (map (f x) l)).
Proof.
  unfold ak_zip, one_each.
  induction l as [|y l IH]; simpl; [reflexivity|].
  simpl in IH. rewrite IH. reflexivity.
Qed.

Lemma ak_map2_one_event {A B C : Type} (f : A -> B -> C) (x : A)
    (l : list B) :
  l <> [] -> ak_map2 f [[x]] (one_each l) = Ok (one_each (map (f x) l)).
Proof.
  intros Hl. unfold ak_map2.
  assert (Hn : Nat.max (length [[x]]) (length (one_each l)) = length l).
  { unfold one_each. rewrite length_map. destruct l; [done|simpl; lia]. }
  rewrite Hn.
  replace (broadcast_to (length l) (one_each l)) with (one_each l).
  - apply ak_zip_replicate.
  - rewrite <- (broadcast_to_same (one_each l)) at 1.
    unfold one_each. by rewrite length_map.
Qed.

Lemma ak_where_one_event {T A : Type} (c : bool) (g h : T -> A) (l : list T) :
  l <> [] ->
  ak_where [[c]] (one_each (map g l)) (one_each (map h l))
  = Ok (one_each (map (fun t => if c then g t else h t) l)).
Proof.
  intros Hl. unfold ak_where.
  rewrite <- (ak_map_one_each g), <- (ak_map_one_each h), ak_map2_columns.
  simpl. rewrite ak_map_one_each, ak_map2_one_event by (by destruct l).
  rewrite map_map. reflexivity.
Qed.

Lemma vecsdict_of_insert_R2 (P1 R1 H1 C1 P2 R2 R2' H2 C2 Y1 Y2 : value) :
  <["R2" := R2']> (vecsdict_of P1 R1 H1 C1 P2 R2 H2 C2 Y1 Y2)
  = vecsdict_of P1 R1 H1 C1 P2 R2' H2 C2 Y1 Y2.
Proof.
  unfold vecsdict_of. apply map_eq. intros k.
  destruct (decide (k = "R2")) as [->|Hk]; [by simplify_map_eq|].
  rewrite (lookup_insert_ne _ "R2" k) by done.
  rewrite !lookup_insert.
  repeat (case_decide; [first [reflexivity|congruence]|]).
  reflexivity.
Qed.

(** X17: a batch of one event is broadcast.  On a dict whose R2 holds
    several events of one entry each, and whose other components hold one
    event of one entry, [ComputeAcopAngle] returns one angle for every event
    of R2: the angle of the one event with its R2 replaced. *)
Theorem X17_one_event_is_broadcast (e : Event) (rs : list ThreeVector)
    (y1 y2 : bool) :
  rs <> [] ->
  ComputeAcopAngle (<["R2" := VVec (one_each rs)]> (events_dict [[e]] y1 y2))
  = Ok (one_each (map (fun r => acop_event y1 y2 (with_R2 e r)) rs)).
Proof.
  intros Hrs. unfold events_dict.
  rewrite vecsdict_of_insert_R2, ComputeAcopAngle_vecsdict_of.
  unfold angle_of_components, acop_before_wrap.
  rewrite combine_Y_columns. simpl.
  rewrite ak_map2_one_event by done. simpl.
  rewrite !ak_map_one_each, !map_map, ak_where_one_event by done. simpl.
  assert (Hfin : forall G : ThreeVector -> float,
            wrap_angle (one_each (map G rs))
            = Ok (one_each (map (fun r => wrap (G r)) rs))).
  { intros G. rewrite <- ak_map_one_each, wrap_angle_columns.
    by rewrite ak_map_one_each. }
  destruct y1, y2; simpl;
    rewrite ?ak_map_one_each, ?map_map, ?ak_where_one_event by done; simpl;
    rewrite Hfin; reflexivity.
Qed.

Lemma X17_one_event_is_broadcast_witness :
  ComputeAcopAngle (<["R2" := VVec [[ex]; [ey]]]>
                      (events_dict [[ev_right_angle]] false false))
  = Ok [[acop_event false false (with_R2 ev_right_angle ex)];
        [acop_event false false (with_R2 ev_right_angle ey)]].
Proof.
  apply (X17_one_event_is_broadcast ev_right_angle [ex; ey] false false).
  discriminate.
Defined.

